(** * STM32F7 flash controller driver (lib/stm32/f7/flash.c)

    A shallow embedding of the driver as programs over volatile
    memory-mapped registers.  Every volatile read takes its value from the
    environment (the hardware), every access is recorded in program order,
    and the two busy-wait loops run for as long as the environment keeps
    them spinning. *)

From Stdlib Require Import ZArith List Bool Lia Btauto.
Import ListNotations.

Local Open Scope Z_scope.

(** ** 32-bit arithmetic *)

Module Word32.

Definition wrap32 (x : Z) : Z := x mod 2 ^ 32.

(** [~x] on a [uint32_t]. *)
Definition not32 (x : Z) : Z := wrap32 (Z.lnot x).

(** [x << n] on a [uint32_t]. *)
Definition shl32 (x n : Z) : Z := wrap32 (Z.shiftl x n).

(** [x + y] on a [uint32_t]. *)
Definition add32 (x y : Z) : Z := wrap32 (x + y).


End Word32.
Export Word32.

(** ** Register definitions

    The driver includes <libopencm3/stm32/flash.h>, which gives the bit
    positions of the controller's registers.  The driver's behaviour is
    stated for every header; the layout facts a property relies on are
    named in [flash_h_ok]. *)

Class flash_h : Type := {
  FLASH_ACR_LATENCY_MASK : Z;
  FLASH_ACR_ARTRST : Z;
  FLASH_ACR_ARTEN : Z;
  FLASH_ACR_PRFTEN : Z;
  FLASH_CR_LOCK : Z;
  FLASH_CR_STRT : Z;
  FLASH_CR_PROGRAM_MASK : Z;
  FLASH_CR_PROGRAM_SHIFT : Z;
  FLASH_CR_SNB_MASK : Z;
  FLASH_CR_SNB_SHIFT : Z;
  FLASH_CR_MER : Z;
  FLASH_CR_SER : Z;
  FLASH_CR_PG : Z;
  FLASH_SR_BSY : Z;
  FLASH_SR_ERSERR : Z;
  FLASH_SR_PGPERR : Z;
  FLASH_SR_PGAERR : Z;
  FLASH_SR_WRPERR : Z;
  FLASH_SR_EOP : Z;
  FLASH_OPTCR_OPTSTRT : Z;
  FLASH_OPTCR_OPTLOCK : Z
}.

(** Modelled from the spec: the key constants [FLASH_KEYR_KEY1] and
    [FLASH_KEYR_KEY2] of the missing header flash.h; the program/erase
    keys are [0x45670123] then [0xCDEF89AB]. *)
Definition FLASH_KEYR_KEY1 : Z := 0x45670123.
Definition FLASH_KEYR_KEY2 : Z := 0xCDEF89AB.

(** Modelled from the spec: the key constants [FLASH_OPTKEYR_KEY1] and
    [FLASH_OPTKEYR_KEY2] of the missing header flash.h; the option-byte
    keys are [0x08192A3B] then [0x4C5D6E7F]. *)
Definition FLASH_OPTKEYR_KEY1 : Z := 0x08192A3B.
Definition FLASH_OPTKEYR_KEY2 : Z := 0x4C5D6E7F.

(** Modelled from the spec: the program-width encodings
    [FLASH_CR_PROGRAM_X8] .. [FLASH_CR_PROGRAM_X64] of the missing header
    flash.h; [0b00 = x8], [0b01 = x16], [0b10 = x32], [0b11 = x64]. *)
Definition FLASH_CR_PROGRAM_X8 : Z := 0.
Definition FLASH_CR_PROGRAM_X16 : Z := 1.
Definition FLASH_CR_PROGRAM_X32 : Z := 2.
Definition FLASH_CR_PROGRAM_X64 : Z := 3.

(** A concrete layout, for running the driver on examples: the bit
    positions of the STM32F7 flash controller as its reference manuals
    (RM0385, RM0410) give them, with the five-bit sector-number field of
    the parts with up to 24 sectors. *)
Definition stm32f7 : flash_h := {|
  FLASH_ACR_LATENCY_MASK := 0x0f;
  FLASH_ACR_ARTRST := Z.shiftl 1 11;
  FLASH_ACR_ARTEN := Z.shiftl 1 9;
  FLASH_ACR_PRFTEN := Z.shiftl 1 8;
  FLASH_CR_LOCK := Z.shiftl 1 31;
  FLASH_CR_STRT := Z.shiftl 1 16;
  FLASH_CR_PROGRAM_MASK := 0x3;
  FLASH_CR_PROGRAM_SHIFT := 8;
  FLASH_CR_SNB_MASK := 0x1f;
  FLASH_CR_SNB_SHIFT := 3;
  FLASH_CR_MER := Z.shiftl 1 2;
  FLASH_CR_SER := Z.shiftl 1 1;
  FLASH_CR_PG := Z.shiftl 1 0;
  FLASH_SR_BSY := Z.shiftl 1 16;
  FLASH_SR_ERSERR := Z.shiftl 1 7;
  FLASH_SR_PGPERR := Z.shiftl 1 6;
  FLASH_SR_PGAERR := Z.shiftl 1 5;
  FLASH_SR_WRPERR := Z.shiftl 1 4;
  FLASH_SR_EOP := Z.shiftl 1 0;
  FLASH_OPTCR_OPTSTRT := Z.shiftl 1 1;
  FLASH_OPTCR_OPTLOCK := Z.shiftl 1 0
|}.

(** ** Volatile accesses and their trace *)

Module Mmio.

(** The registers of the flash controller the driver touches. *)
Inductive reg : Type :=
| FLASH_ACR | FLASH_KEYR | FLASH_OPTKEYR | FLASH_SR | FLASH_CR | FLASH_OPTCR.

Definition reg_eqb (a b : reg) : bool :=
  match a, b with
  | FLASH_ACR, FLASH_ACR | FLASH_KEYR, FLASH_KEYR
  | FLASH_OPTKEYR, FLASH_OPTKEYR | FLASH_SR, FLASH_SR
  | FLASH_CR, FLASH_CR | FLASH_OPTCR, FLASH_OPTCR => true
  | _, _ => false
  end.

(** The width of a store through [MMIO8] .. [MMIO64]. *)
Inductive mmio_width : Type := MMIO8 | MMIO16 | MMIO32 | MMIO64.

(** One externally observable action of the driver. *)
Inductive event : Type :=
| EvRead (r : reg) (v : Z)
| EvWrite (r : reg) (v : Z)
| EvStore (w : mmio_width) (address data : Z)
| EvDsb.

Definition trace : Type := list event.

(** The outcome of running a piece of driver code against a finite tape
    of values that the successive volatile reads return. *)
Inductive outcome (A : Type) : Type :=
| Done (a : A) (tr : trace) (rest : list Z)
    (* returned [a]; [rest] is the unread part of the tape *)
| Starved (tr : trace)
    (* still running when the tape ended, after emitting [tr] *)
| Fault (tr : trace).
    (* read outside the caller's buffer, after emitting [tr] *)
Arguments Done {A} a tr rest.
Arguments Starved {A} tr.
Arguments Fault {A} tr.

Definition emitted {A : Type} (o : outcome A) : trace :=
  match o with
  | Done _ tr _ => tr
  | Starved tr => tr
  | Fault tr => tr
  end.

Definition prepend {A : Type} (pre : trace) (o : outcome A) : outcome A :=
  match o with
  | Done a tr rest => Done a (pre ++ tr) rest
  | Starved tr => Starved (pre ++ tr)
  | Fault tr => Fault (pre ++ tr)
  end.

Definition M (A : Type) : Type := list Z -> outcome A.

Definition ret {A : Type} (a : A) : M A := fun tape => Done a [] tape.

Definition bind {A B : Type} (m : M A) (k : A -> M B) : M B :=
  fun tape =>
    match m tape with
    | Done a tr rest => prepend tr (k a rest)
    | Starved tr => Starved tr
    | Fault tr => Fault tr
    end.

Definition fault {A : Type} : M A := fun _ => Fault [].

(** A volatile 32-bit register read: the hardware supplies the value. *)
Definition read (r : reg) : M Z :=
  fun tape =>
    match tape with
    | [] => Starved []
    | raw :: rest => let v := wrap32 raw in Done v [EvRead r v] rest
    end.

(** A volatile 32-bit register write. *)
Definition write (r : reg) (v : Z) : M unit :=
  fun tape => Done tt [EvWrite r v] tape.

(** [MMIOw(address) = data]. *)
Definition store (w : mmio_width) (address data : Z) : M unit :=
  fun tape => Done tt [EvStore w address data] tape.

(** The [dsb] instruction. *)
Definition dsb : M unit := fun tape => Done tt [EvDsb] tape.

(** [while (again (REG));] with an empty body: one read per test. *)
Fixpoint spin (r : reg) (again : Z -> bool) (tape : list Z) : outcome unit :=
  match tape with
  | [] => Starved []
  | raw :: rest =>
      let v := wrap32 raw in
      if again v then prepend [EvRead r v] (spin r again rest)
      else Done tt [EvRead r v] rest
  end.

(** [data[i]] on the caller's buffer, here the list of the bytes the
    caller passes.  The C code has no bound to check; an index past the
    list is outside what the model knows of memory and ends the modelled
    run, and the properties of [flash_program] are stated for buffers that
    hold the [len] bytes asked for. *)
Definition load (data : list Z) (i : nat) : M Z :=
  match nth_error data i with
  | Some d => ret d
  | None => fault
  end.

End Mmio.
Export Mmio.

Declare Scope mmio_scope.
Delimit Scope mmio_scope with mmio.
Notation "x <- m ;; k" := (bind m (fun x => k))
  (at level 61, m at next level, right associativity) : mmio_scope.
Notation "m ;; k" := (bind m (fun _ => k))
  (at level 61, right associativity) : mmio_scope.
Local Open Scope mmio_scope.

(** [REG |= bits] and [REG &= ~bits] on a volatile register: a read, then
    a write of the modified value. *)
Definition or_assign (r : reg) (bits : Z) : M unit :=
  v <- read r ;; write r (Z.lor v bits).

Definition and_not_assign (r : reg) (bits : Z) : M unit :=
  v <- read r ;; write r (Z.land v (not32 bits)).

(** ** The driver *)

Section Driver.

Context {hdr : flash_h}.

Definition flash_set_program_size (psize : Z) : M unit :=
  and_not_assign FLASH_CR
    (shl32 FLASH_CR_PROGRAM_MASK FLASH_CR_PROGRAM_SHIFT) ;;
  or_assign FLASH_CR (shl32 psize FLASH_CR_PROGRAM_SHIFT).

Definition flash_pipeline_stall : M unit := dsb.

Definition flash_set_ws (ws : Z) : M unit :=
  reg32 <- read FLASH_ACR ;;
  let reg32 := Z.land reg32 (not32 FLASH_ACR_LATENCY_MASK) in
  let reg32 := Z.lor reg32 ws in
  write FLASH_ACR reg32 ;;
  spin FLASH_ACR
    (fun acr => negb (Z.land acr FLASH_ACR_LATENCY_MASK =? ws)).

Definition flash_unlock : M unit :=
  or_assign FLASH_CR FLASH_CR_LOCK ;;
  write FLASH_KEYR FLASH_KEYR_KEY1 ;;
  write FLASH_KEYR FLASH_KEYR_KEY2.

Definition flash_lock : M unit :=
  or_assign FLASH_CR FLASH_CR_LOCK.

Definition flash_clear_pgperr_flag : M unit :=
  or_assign FLASH_SR FLASH_SR_PGPERR.

Definition flash_clear_eop_flag : M unit :=
  or_assign FLASH_SR FLASH_SR_EOP.

Definition flash_wait_for_last_operation : M unit :=
  flash_pipeline_stall ;;
  spin FLASH_SR (fun sr => Z.land sr FLASH_SR_BSY =? FLASH_SR_BSY).

Definition flash_unlock_option_bytes : M unit :=
  or_assign FLASH_OPTCR FLASH_OPTCR_OPTLOCK ;;
  write FLASH_OPTKEYR FLASH_OPTKEYR_KEY1 ;;
  write FLASH_OPTKEYR FLASH_OPTKEYR_KEY2.

Definition flash_lock_option_bytes : M unit :=
  or_assign FLASH_OPTCR FLASH_OPTCR_OPTLOCK.

Definition flash_clear_erserr_flag : M unit :=
  or_assign FLASH_SR FLASH_SR_ERSERR.

Definition flash_clear_pgaerr_flag : M unit :=
  or_assign FLASH_SR FLASH_SR_PGAERR.

Definition flash_clear_wrperr_flag : M unit :=
  or_assign FLASH_SR FLASH_SR_WRPERR.

Definition flash_art_enable : M unit :=
  or_assign FLASH_ACR FLASH_ACR_ARTEN.

Definition flash_prefetch_enable : M unit :=
  or_assign FLASH_ACR FLASH_ACR_PRFTEN.

Definition flash_prefetch_disable : M unit :=
  and_not_assign FLASH_ACR FLASH_ACR_PRFTEN.

Definition flash_art_reset : M unit :=
  or_assign FLASH_ACR FLASH_ACR_ARTRST.

Definition flash_clear_status_flags : M unit :=
  flash_clear_erserr_flag ;;
  flash_clear_pgaerr_flag ;;
  flash_clear_wrperr_flag ;;
  flash_clear_pgperr_flag ;;
  flash_clear_eop_flag.

Definition flash_erase_all_sectors (program_size : Z) : M unit :=
  flash_wait_for_last_operation ;;
  flash_set_program_size program_size ;;
  or_assign FLASH_CR FLASH_CR_MER ;;
  or_assign FLASH_CR FLASH_CR_STRT ;;
  flash_wait_for_last_operation ;;
  and_not_assign FLASH_CR FLASH_CR_MER.

Definition flash_erase_sector (sector program_size : Z) : M unit :=
  flash_wait_for_last_operation ;;
  flash_set_program_size program_size ;;
  and_not_assign FLASH_CR (shl32 FLASH_CR_SNB_MASK FLASH_CR_SNB_SHIFT) ;;
  or_assign FLASH_CR
    (shl32 (Z.land sector FLASH_CR_SNB_MASK) FLASH_CR_SNB_SHIFT) ;;
  or_assign FLASH_CR FLASH_CR_SER ;;
  or_assign FLASH_CR FLASH_CR_STRT ;;
  flash_wait_for_last_operation ;;
  and_not_assign FLASH_CR FLASH_CR_SER ;;
  and_not_assign FLASH_CR (shl32 FLASH_CR_SNB_MASK FLASH_CR_SNB_SHIFT).

Definition flash_program_double_word (address data : Z) : M unit :=
  flash_wait_for_last_operation ;;
  flash_set_program_size FLASH_CR_PROGRAM_X64 ;;
  or_assign FLASH_CR FLASH_CR_PG ;;
  store MMIO64 address data ;;
  flash_wait_for_last_operation ;;
  and_not_assign FLASH_CR FLASH_CR_PG.

Definition flash_program_word (address data : Z) : M unit :=
  flash_wait_for_last_operation ;;
  flash_set_program_size FLASH_CR_PROGRAM_X32 ;;
  or_assign FLASH_CR FLASH_CR_PG ;;
  store MMIO32 address data ;;
  flash_wait_for_last_operation ;;
  and_not_assign FLASH_CR FLASH_CR_PG.

Definition flash_program_half_word (address data : Z) : M unit :=
  flash_wait_for_last_operation ;;
  flash_set_program_size FLASH_CR_PROGRAM_X16 ;;
  or_assign FLASH_CR FLASH_CR_PG ;;
  store MMIO16 address data ;;
  flash_wait_for_last_operation ;;
  and_not_assign FLASH_CR FLASH_CR_PG.

Definition flash_program_byte (address data : Z) : M unit :=
  flash_wait_for_last_operation ;;
  flash_set_program_size FLASH_CR_PROGRAM_X8 ;;
  or_assign FLASH_CR FLASH_CR_PG ;;
  store MMIO8 address data ;;
  flash_wait_for_last_operation ;;
  and_not_assign FLASH_CR FLASH_CR_PG.

(** The body of [for (i = ...; i < len; i++)] with [todo = len - i]
    iterations left. *)
Fixpoint flash_program_from (address : Z) (data : list Z) (i todo : nat)
  : M unit :=
  match todo with
  | O => ret tt
  | S todo' =>
      d <- load data i ;;
      flash_program_byte (add32 address (Z.of_nat i)) d ;;
      flash_program_from address data (S i) todo'
  end.

Definition flash_program (address : Z) (data : list Z) (len : Z) : M unit :=
  flash_program_from address data 0 (Z.to_nat len).

Definition flash_program_option_bytes (data : Z) : M unit :=
  flash_wait_for_last_operation ;;
  optcr <- read FLASH_OPTCR ;;
  (if negb (Z.land optcr FLASH_OPTCR_OPTLOCK =? 0)
   then flash_unlock_option_bytes
   else ret tt) ;;
  write FLASH_OPTCR (Z.land data (not32 0x3)) ;;
  or_assign FLASH_OPTCR FLASH_OPTCR_OPTSTRT ;;
  flash_wait_for_last_operation.

End Driver.

(** ** What a trace shows *)

Module View.

(** The values written to register [r], oldest first. *)
Fixpoint writes_to (r : reg) (tr : trace) : list Z :=
  match tr with
  | [] => []
  | EvWrite r' v :: tr' =>
      if reg_eqb r r' then v :: writes_to r tr' else writes_to r tr'
  | _ :: tr' => writes_to r tr'
  end.

(** The memory-mapped stores, oldest first. *)
Fixpoint stores (tr : trace) : list (mmio_width * Z * Z) :=
  match tr with
  | [] => []
  | EvStore w a d :: tr' => (w, a, d) :: stores tr'
  | _ :: tr' => stores tr'
  end.

(** A register that behaves as a cell of a register bank holds the last
    value written to it.  [bank_after r cur tr] is the content of [r]
    after [tr] when it held [cur] before. *)
Fixpoint bank_after (r : reg) (cur : Z) (tr : trace) : Z :=
  match tr with
  | [] => cur
  | EvWrite r' v :: tr' => bank_after r (if reg_eqb r r' then v else cur) tr'
  | _ :: tr' => bank_after r cur tr'
  end.

(** Every read of [r] in [tr] returned the content of the bank cell. *)
Fixpoint bank_coherent (r : reg) (cur : Z) (tr : trace) : bool :=
  match tr with
  | [] => true
  | EvRead r' v :: tr' =>
      (if reg_eqb r r' then v =? cur else true) && bank_coherent r cur tr'
  | EvWrite r' v :: tr' =>
      bank_coherent r (if reg_eqb r r' then v else cur) tr'
  | _ :: tr' => bank_coherent r cur tr'
  end.

(** The content of the bank cell [r] when the first memory-mapped store
    of [tr] is issued. *)
Fixpoint bank_at_store (r : reg) (cur : Z) (tr : trace) : option Z :=
  match tr with
  | [] => None
  | EvStore _ _ _ :: _ => Some cur
  | EvWrite r' v :: tr' =>
      bank_at_store r (if reg_eqb r r' then v else cur) tr'
  | _ :: tr' => bank_at_store r cur tr'
  end.

(** Every read of [r] in [tr] returned the content of the bank cell on
    the bits of [mask]; the other bits are the hardware's to change. *)
Fixpoint bank_coherent_on (mask : Z) (r : reg) (cur : Z) (tr : trace)
  : bool :=
  match tr with
  | [] => true
  | EvRead r' v :: tr' =>
      (if reg_eqb r r' then Z.land v mask =? Z.land cur mask else true)
      && bank_coherent_on mask r cur tr'
  | EvWrite r' v :: tr' =>
      bank_coherent_on mask r (if reg_eqb r r' then v else cur) tr'
  | _ :: tr' => bank_coherent_on mask r cur tr'
  end.

End View.
Export View.

Section Patterns.

Context {hdr : flash_h}.

(** The event of a volatile read of [r] that the hardware answers with
    [raw]. *)
Definition rd (r : reg) (raw : Z) : event := EvRead r (wrap32 raw).

(** The two events of [r |= bits] and of [r &= ~bits]. *)
Definition rmw_or (r : reg) (raw bits : Z) : trace :=
  [rd r raw; EvWrite r (Z.lor (wrap32 raw) bits)].

Definition rmw_and_not (r : reg) (raw bits : Z) : trace :=
  [rd r raw; EvWrite r (Z.land (wrap32 raw) (not32 bits))].

(** The hardware answers a status-register read with the busy flag set. *)
Definition still_busy (raw : Z) : Prop :=
  Z.land (wrap32 raw) FLASH_SR_BSY = FLASH_SR_BSY.

(** Wait idle: the barrier, the polls that saw busy, the poll that saw
    idle. *)
Definition wait_trace (busy : list Z) (idle : Z) : trace :=
  EvDsb :: map (rd FLASH_SR) busy ++ [rd FLASH_SR idle].

(** The fields of the control and access-control registers. *)
Definition program_size_field (cr : Z) : Z :=
  Z.land (Z.shiftr cr FLASH_CR_PROGRAM_SHIFT) FLASH_CR_PROGRAM_MASK.

Definition sector_number_field (cr : Z) : Z :=
  Z.land (Z.shiftr cr FLASH_CR_SNB_SHIFT) FLASH_CR_SNB_MASK.

Definition latency_field (acr : Z) : Z :=
  Z.land acr FLASH_ACR_LATENCY_MASK.

(** The control-register bits an erase or program operation arms:
    program enable, sector erase, mass erase and the sector number. *)
Definition cr_armed_bits : Z :=
  Z.lor (Z.lor FLASH_CR_PG FLASH_CR_SER)
        (Z.lor FLASH_CR_MER (shl32 FLASH_CR_SNB_MASK FLASH_CR_SNB_SHIFT)).

(** The four program primitives, by the width of their store. *)
Definition program_primitive (w : mmio_width) : Z -> Z -> M unit :=
  match w with
  | MMIO8 => flash_program_byte
  | MMIO16 => flash_program_half_word
  | MMIO32 => flash_program_word
  | MMIO64 => flash_program_double_word
  end.

(** The parallelism encoding that matches a store width: 0/1/2/3. *)
Definition parallelism (w : mmio_width) : Z :=
  match w with
  | MMIO8 => 0
  | MMIO16 => 1
  | MMIO32 => 2
  | MMIO64 => 3
  end.

(** The pattern of a program cycle: wait idle; clear the program-size
    field and write the encoding into it; set the program-enable bit; one
    store; wait idle; clear the program-enable bit. *)
Definition program_trace (w : mmio_width) (address data : Z)
    (busy1 : list Z) (idle1 c1 c2 c3 : Z)
    (busy2 : list Z) (idle2 c4 : Z) : trace :=
  wait_trace busy1 idle1
  ++ rmw_and_not FLASH_CR c1
       (shl32 FLASH_CR_PROGRAM_MASK FLASH_CR_PROGRAM_SHIFT)
  ++ rmw_or FLASH_CR c2 (shl32 (parallelism w) FLASH_CR_PROGRAM_SHIFT)
  ++ rmw_or FLASH_CR c3 FLASH_CR_PG
  ++ [EvStore w address data]
  ++ wait_trace busy2 idle2
  ++ rmw_and_not FLASH_CR c4 FLASH_CR_PG.

Definition program_tape (busy1 : list Z) (idle1 c1 c2 c3 : Z)
    (busy2 : list Z) (idle2 c4 : Z) (rest : list Z) : list Z :=
  busy1 ++ idle1 :: c1 :: c2 :: c3 :: busy2 ++ idle2 :: c4 :: rest.


(** The erase and program operations. *)
Inductive operation : Type :=
| EraseAllSectors (program_size : Z)
| EraseSector (sector program_size : Z)
| Program (w : mmio_width) (address data : Z).

Definition run_operation (op : operation) : M unit :=
  match op with
  | EraseAllSectors program_size => flash_erase_all_sectors program_size
  | EraseSector sector program_size =>
      flash_erase_sector sector program_size
  | Program w address data => program_primitive w address data
  end.

(** The control-register bits an operation arms itself. *)
Definition armed_by (op : operation) : Z :=
  match op with
  | EraseAllSectors _ => FLASH_CR_MER
  | EraseSector _ _ =>
      Z.lor FLASH_CR_SER (shl32 FLASH_CR_SNB_MASK FLASH_CR_SNB_SHIFT)
  | Program _ _ _ => FLASH_CR_PG
  end.

(** The five write-one-to-clear status flags and their clear functions. *)
Inductive status_flag : Type := EOP | PGPERR | PGAERR | WRPERR | ERSERR.

Definition flag_bit (f : status_flag) : Z :=
  match f with
  | EOP => FLASH_SR_EOP
  | PGPERR => FLASH_SR_PGPERR
  | PGAERR => FLASH_SR_PGAERR
  | WRPERR => FLASH_SR_WRPERR
  | ERSERR => FLASH_SR_ERSERR
  end.

Definition flash_clear_flag (f : status_flag) : M unit :=
  match f with
  | EOP => flash_clear_eop_flag
  | PGPERR => flash_clear_pgperr_flag
  | PGAERR => flash_clear_pgaerr_flag
  | WRPERR => flash_clear_wrperr_flag
  | ERSERR => flash_clear_erserr_flag
  end.

Definition FLASH_SR_W1C : Z :=
  Z.lor FLASH_SR_EOP
    (Z.lor FLASH_SR_PGPERR
       (Z.lor FLASH_SR_PGAERR (Z.lor FLASH_SR_WRPERR FLASH_SR_ERSERR))).

(** The hardware's status register, as the spec's data model has it: the
    five non-busy flags are write-one-to-clear, so a write of [v] clears
    exactly the flags that are 1 in [v]; writing 0 to a flag leaves it. *)
Definition sr_write (sr v : Z) : Z :=
  Z.land sr (Z.lnot (Z.land v FLASH_SR_W1C)).

Fixpoint sr_after (sr : Z) (tr : trace) : Z :=
  match tr with
  | [] => sr
  | EvWrite FLASH_SR v :: tr' => sr_after (sr_write sr v) tr'
  | _ :: tr' => sr_after sr tr'
  end.

(** A status flag is pending in [sr]. *)
Definition pending (f : status_flag) (sr : Z) : bool :=
  negb (Z.land sr (flag_bit f) =? 0).

(** The pattern of the option-byte write. *)
Definition option_locked (optcr : Z) : bool :=
  negb (Z.land (wrap32 optcr) FLASH_OPTCR_OPTLOCK =? 0).

Definition unlock_option_trace (o2 : Z) : trace :=
  rmw_or FLASH_OPTCR o2 FLASH_OPTCR_OPTLOCK
  ++ [EvWrite FLASH_OPTKEYR 0x08192A3B; EvWrite FLASH_OPTKEYR 0x4C5D6E7F].

Definition option_bytes_trace (data : Z)
    (busy1 : list Z) (idle1 o1 o2 o3 : Z)
    (busy2 : list Z) (idle2 : Z) : trace :=
  wait_trace busy1 idle1
  ++ [rd FLASH_OPTCR o1]
  ++ (if option_locked o1 then unlock_option_trace o2 else [])
  ++ [EvWrite FLASH_OPTCR (Z.land data (not32 0x3))]
  ++ rmw_or FLASH_OPTCR o3 FLASH_OPTCR_OPTSTRT
  ++ wait_trace busy2 idle2.

Definition option_bytes_tape
    (busy1 : list Z) (idle1 o1 o2 o3 : Z)
    (busy2 : list Z) (idle2 : Z) (rest : list Z) : list Z :=
  busy1 ++ idle1 :: o1
    :: (if option_locked o1 then [o2] else [])
    ++ o3 :: busy2 ++ idle2 :: rest.

(** The value [flash_set_ws ws] writes back when it read [r]. *)
Definition set_ws_written (ws r : Z) : Z :=
  Z.lor (Z.land (wrap32 r) (not32 FLASH_ACR_LATENCY_MASK)) ws.

(** The pattern of [flash_set_ws]: the read-modify-write, then the polls
    that did not show the new latency, then the poll that did. *)
Definition set_ws_trace (ws r : Z) (polls : list Z) (last : Z) : trace :=
  [rd FLASH_ACR r; EvWrite FLASH_ACR (set_ws_written ws r)]
  ++ map (rd FLASH_ACR) polls ++ [rd FLASH_ACR last].


(** The pattern of a sector erase. *)
Definition erase_sector_trace (sector program_size : Z)
    (busy1 : list Z) (idle1 c1 c2 c3 c4 c5 c6 : Z)
    (busy2 : list Z) (idle2 c7 c8 : Z) : trace :=
  wait_trace busy1 idle1
  ++ rmw_and_not FLASH_CR c1
       (shl32 FLASH_CR_PROGRAM_MASK FLASH_CR_PROGRAM_SHIFT)
  ++ rmw_or FLASH_CR c2 (shl32 program_size FLASH_CR_PROGRAM_SHIFT)
  ++ rmw_and_not FLASH_CR c3 (shl32 FLASH_CR_SNB_MASK FLASH_CR_SNB_SHIFT)
  ++ rmw_or FLASH_CR c4
       (shl32 (Z.land sector FLASH_CR_SNB_MASK) FLASH_CR_SNB_SHIFT)
  ++ rmw_or FLASH_CR c5 FLASH_CR_SER
  ++ rmw_or FLASH_CR c6 FLASH_CR_STRT
  ++ wait_trace busy2 idle2
  ++ rmw_and_not FLASH_CR c7 FLASH_CR_SER
  ++ rmw_and_not FLASH_CR c8 (shl32 FLASH_CR_SNB_MASK FLASH_CR_SNB_SHIFT).

(** The pattern of a mass erase. *)
Definition erase_all_trace (program_size : Z)
    (busy1 : list Z) (idle1 c1 c2 c3 c4 : Z)
    (busy2 : list Z) (idle2 c5 : Z) : trace :=
  wait_trace busy1 idle1
  ++ rmw_and_not FLASH_CR c1
       (shl32 FLASH_CR_PROGRAM_MASK FLASH_CR_PROGRAM_SHIFT)
  ++ rmw_or FLASH_CR c2 (shl32 program_size FLASH_CR_PROGRAM_SHIFT)
  ++ rmw_or FLASH_CR c3 FLASH_CR_MER
  ++ rmw_or FLASH_CR c4 FLASH_CR_STRT
  ++ wait_trace busy2 idle2
  ++ rmw_and_not FLASH_CR c5 FLASH_CR_MER.

Definition erase_sector_tape
    (busy1 : list Z) (idle1 c1 c2 c3 c4 c5 c6 : Z)
    (busy2 : list Z) (idle2 c7 c8 : Z) (rest : list Z) : list Z :=
  busy1 ++ idle1 :: c1 :: c2 :: c3 :: c4 :: c5 :: c6
    :: busy2 ++ idle2 :: c7 :: c8 :: rest.

Definition erase_all_tape
    (busy1 : list Z) (idle1 c1 c2 c3 c4 : Z)
    (busy2 : list Z) (idle2 c5 : Z) (rest : list Z) : list Z :=
  busy1 ++ idle1 :: c1 :: c2 :: c3 :: c4 :: busy2 ++ idle2 :: c5 :: rest.

(** The poll condition of [flash_set_ws]. *)
Definition latency_differs (ws acr : Z) : bool :=
  negb (Z.land acr FLASH_ACR_LATENCY_MASK =? ws).

(** The registers a piece of driver code accesses, and whether it issues
    memory-mapped stores: [within rs may_store e] holds of a barrier, of a
    read or write of a register in [rs], and of a store when
    [may_store]. *)
Definition within (rs : list reg) (may_store : bool) (e : event) : bool :=
  match e with
  | EvRead r _ => existsb (reg_eqb r) rs
  | EvWrite r _ => existsb (reg_eqb r) rs
  | EvStore _ _ _ => may_store
  | EvDsb => true
  end.

(** Whatever the hardware answers and however the run ends, the code
    stays within the footprint. *)
Definition footprint {A : Type} (rs : list reg) (may_store : bool)
    (m : M A) : Prop :=
  forall tape, forallb (within rs may_store) (emitted (m tape)) = true.

(** Erase and program operations called one after the other. *)
Fixpoint run_operations (ops : list operation) : M unit :=
  match ops with
  | [] => ret tt
  | op :: ops' => run_operation op ;; run_operations ops'
  end.

(** The parallelism an operation writes to the program-size field. *)
Definition requested_size (op : operation) : Z :=
  match op with
  | EraseAllSectors program_size => program_size
  | EraseSector _ program_size => program_size
  | Program w _ _ => parallelism w
  end.

(** The control-register bits an operation writes to: the program-size
    field, the bits it arms and, for an erase, the start strobe. *)
Definition touched_by (op : operation) : Z :=
  Z.lor (shl32 FLASH_CR_PROGRAM_MASK FLASH_CR_PROGRAM_SHIFT)
    (match op with
     | EraseAllSectors _ => Z.lor FLASH_CR_MER FLASH_CR_STRT
     | EraseSector _ _ =>
         Z.lor (Z.lor FLASH_CR_SER FLASH_CR_STRT)
               (shl32 FLASH_CR_SNB_MASK FLASH_CR_SNB_SHIFT)
     | Program _ _ _ => FLASH_CR_PG
     end).

(** The stores [flash_program] is asked for: [data[i]] at [address + i],
    for the indices below [len] that the buffer has. *)
Definition expected_stores (address : Z) (data : list Z) (len : nat)
  : list (mmio_width * Z * Z) :=
  map (fun p => (MMIO8, add32 address (Z.of_nat (fst p)), snd p))
      (combine (seq 0 len) data).

(** The control-register bits the last write of an operation clears. *)
Definition last_cleared (op : operation) : Z :=
  match op with
  | EraseAllSectors _ => FLASH_CR_MER
  | EraseSector _ _ => shl32 FLASH_CR_SNB_MASK FLASH_CR_SNB_SHIFT
  | Program _ _ _ => FLASH_CR_PG
  end.

(** What the hardware answers during one program cycle: the status polls
    of the first wait, the three control-register reads of the arming
    read-modify-writes, the status polls of the second wait and the
    control-register read of the disarming read-modify-write. *)
Record cycle_answers : Type := {
  polls_before : list Z;
  idle_before : Z;
  cr_clear : Z;
  cr_size : Z;
  cr_enable : Z;
  polls_after : list Z;
  idle_after : Z;
  cr_disable : Z
}.

(** Both waits of the cycle end: the polls before the last show busy, the
    last shows idle. *)
Definition cycle_settles (q : cycle_answers) : Prop :=
  Forall still_busy (polls_before q) /\ ~ still_busy (idle_before q) /\
  Forall still_busy (polls_after q) /\ ~ still_busy (idle_after q).

Definition cycle_tape (q : cycle_answers) (rest : list Z) : list Z :=
  program_tape (polls_before q) (idle_before q)
    (cr_clear q) (cr_size q) (cr_enable q)
    (polls_after q) (idle_after q) (cr_disable q) rest.

Definition cycle_trace (w : mmio_width) (address data : Z)
    (q : cycle_answers) : trace :=
  program_trace w address data (polls_before q) (idle_before q)
    (cr_clear q) (cr_size q) (cr_enable q)
    (polls_after q) (idle_after q) (cr_disable q).

(** The answers to one cycle after the other. *)
Definition bulk_tape (qs : list cycle_answers) (rest : list Z) : list Z :=
  fold_right cycle_tape rest qs.

(** One 8-bit program cycle per answered cycle, for the bytes [data] from
    index [i] on: byte [data[0]] at [address + i], the next at
    [address + i + 1], ... *)
Fixpoint bulk_trace (address : Z) (i : nat) (data : list Z)
    (qs : list cycle_answers) {struct qs} : trace :=
  match qs, data with
  | q :: qs', d :: data' =>
      cycle_trace MMIO8 (add32 address (Z.of_nat i)) d q
      ++ bulk_trace address (S i) data' qs'
  | _, _ => []
  end.

End Patterns.

(** The facts about the register layout that the properties below rely
    on; they hold of the STM32F7 layout. *)
Class flash_h_ok (hdr : flash_h) : Prop := {
  program_shift_nonneg : 0 <= FLASH_CR_PROGRAM_SHIFT;
  program_field_fits :
    0 <= Z.shiftl FLASH_CR_PROGRAM_MASK FLASH_CR_PROGRAM_SHIFT < 2 ^ 32;
  program_mask_covers : Z.land 3 FLASH_CR_PROGRAM_MASK = 3;
  snb_shift_nonneg : 0 <= FLASH_CR_SNB_SHIFT;
  snb_field_fits :
    0 <= Z.shiftl FLASH_CR_SNB_MASK FLASH_CR_SNB_SHIFT < 2 ^ 32;
  armed_below_program_field :
    0 <= cr_armed_bits < 2 ^ FLASH_CR_PROGRAM_SHIFT;
  strt_not_armed : Z.land FLASH_CR_STRT cr_armed_bits = 0;
  ser_outside_snb :
    Z.land FLASH_CR_SER (shl32 FLASH_CR_SNB_MASK FLASH_CR_SNB_SHIFT) = 0
}.

(** ** Running driver code *)

Section Running.

Context {hdr : flash_h}.

Lemma prepend_nil {A : Type} (o : outcome A) : prepend [] o = o.
Proof. destruct o; reflexivity. Qed.

Lemma prepend_prepend {A : Type} (p q : trace) (o : outcome A) :
  prepend p (prepend q o) = prepend (p ++ q) o.
Proof. destruct o; simpl; rewrite app_assoc; reflexivity. Qed.

Lemma emitted_prepend {A : Type} (p : trace) (o : outcome A) :
  emitted (prepend p o) = p ++ emitted o.
Proof. destruct o; reflexivity. Qed.

Lemma prepend_Done_inv {A : Type} (p : trace) (o : outcome A) a tr rest :
  prepend p o = Done a tr rest ->
  exists tr', o = Done a tr' rest /\ tr = p ++ tr'.
Proof.
  destruct o as [a' tr' rest'| |]; simpl; intros H; inversion H; subst.
  exists tr'. split; reflexivity.
Qed.

Lemma bind_Done_inv {A B : Type} (m : M A) (k : A -> M B) tape b tr rest :
  bind m k tape = Done b tr rest ->
  exists a tr1 mid tr2,
    m tape = Done a tr1 mid /\ k a mid = Done b tr2 rest /\ tr = tr1 ++ tr2.
Proof.
  unfold bind. destruct (m tape) as [a tr1 mid| |]; intros H;
    try discriminate.
  apply prepend_Done_inv in H. destruct H as (tr2 & Hk & ->).
  exists a, tr1, mid, tr2. repeat split; assumption.
Qed.

Lemma bind_Done {A B : Type} (m : M A) (k : A -> M B) tape a tr mid :
  m tape = Done a tr mid -> bind m k tape = prepend tr (k a mid).
Proof. unfold bind. intros ->. reflexivity. Qed.

Lemma read_Done_inv r tape v tr rest :
  read r tape = Done v tr rest ->
  exists raw, tape = raw :: rest /\ v = wrap32 raw /\ tr = [rd r raw].
Proof.
  destruct tape as [|raw tape']; simpl; intros H; inversion H; subst.
  exists raw. repeat split.
Qed.

Lemma or_assign_Done_inv r bits tape u tr rest :
  or_assign r bits tape = Done u tr rest ->
  exists raw, tape = raw :: rest /\ tr = rmw_or r raw bits.
Proof.
  destruct tape as [|raw tape']; cbv [or_assign bind read write prepend];
    intros H; inversion H; subst.
  exists raw. split; reflexivity.
Qed.

Lemma and_not_assign_Done_inv r bits tape u tr rest :
  and_not_assign r bits tape = Done u tr rest ->
  exists raw, tape = raw :: rest /\ tr = rmw_and_not r raw bits.
Proof.
  destruct tape as [|raw tape'];
    cbv [and_not_assign bind read write prepend];
    intros H; inversion H; subst.
  exists raw. split; reflexivity.
Qed.

Lemma write_Done_inv r v tape u tr rest :
  write r v tape = Done u tr rest -> tape = rest /\ tr = [EvWrite r v].
Proof. cbv [write]. intros H; inversion H; subst. split; reflexivity. Qed.

Lemma store_Done_inv w a d tape u tr rest :
  store w a d tape = Done u tr rest -> tape = rest /\ tr = [EvStore w a d].
Proof. cbv [store]. intros H; inversion H; subst. split; reflexivity. Qed.

(** The loop never reads outside a buffer. *)
Lemma spin_no_fault r again tape tr : spin r again tape <> Fault tr.
Proof.
  revert tr. induction tape as [|raw tape' IH]; intros tr; simpl.
  - discriminate.
  - destruct (again (wrap32 raw)); [|discriminate].
    destruct (spin r again tape') eqn:E; simpl; try discriminate.
    exfalso. eapply IH. reflexivity.
Qed.

(** The loop returns at the first read for which the test fails. *)
Lemma spin_Done_inv r again tape u tr rest :
  spin r again tape = Done u tr rest ->
  exists pre last,
    tape = pre ++ last :: rest /\
    Forall (fun raw => again (wrap32 raw) = true) pre /\
    again (wrap32 last) = false /\
    tr = map (rd r) pre ++ [rd r last].
Proof.
  revert tr. induction tape as [|raw tape' IH]; intros tr; simpl.
  - discriminate.
  - destruct (again (wrap32 raw)) eqn:Hraw.
    + intros H. apply prepend_Done_inv in H. destruct H as (tr' & H & ->).
      destruct (IH _ H) as (pre & last & -> & Hpre & Hlast & ->).
      exists (raw :: pre), last. repeat split; auto.
    + intros H. inversion H; subst.
      exists [], raw. repeat split; auto.
Qed.

Lemma spin_Done r again pre last rest :
  Forall (fun raw => again (wrap32 raw) = true) pre ->
  again (wrap32 last) = false ->
  spin r again (pre ++ last :: rest)
  = Done tt (map (rd r) pre ++ [rd r last]) rest.
Proof.
  intros Hpre Hlast. induction Hpre as [|raw pre Hraw Hpre IH]; simpl.
  - rewrite Hlast. reflexivity.
  - rewrite Hraw, IH. reflexivity.
Qed.

(** The loop is still running at the end of the tape when the test held
    for every read. *)
Lemma spin_Starved_inv r again tape tr :
  spin r again tape = Starved tr ->
  Forall (fun raw => again (wrap32 raw) = true) tape /\
  tr = map (rd r) tape.
Proof.
  revert tr. induction tape as [|raw tape' IH]; intros tr; simpl.
  - intros H; inversion H. split; constructor.
  - destruct (again (wrap32 raw)) eqn:Hraw; [|discriminate].
    destruct (spin r again tape') eqn:E; simpl; try discriminate.
    intros H; inversion H; subst.
    destruct (IH _ eq_refl) as (Hall & ->).
    split; [constructor; assumption | reflexivity].
Qed.

Lemma spin_Starved r again tape :
  Forall (fun raw => again (wrap32 raw) = true) tape ->
  spin r again tape = Starved (map (rd r) tape).
Proof.
  induction 1 as [|raw tape' Hraw Hall IH]; simpl.
  - reflexivity.
  - rewrite Hraw, IH. reflexivity.
Qed.

Lemma busy_test raw :
  (Z.land (wrap32 raw) FLASH_SR_BSY =? FLASH_SR_BSY) = true
  <-> still_busy raw.
Proof. unfold still_busy. apply Z.eqb_eq. Qed.

Lemma idle_test raw :
  (Z.land (wrap32 raw) FLASH_SR_BSY =? FLASH_SR_BSY) = false
  <-> ~ still_busy raw.
Proof. unfold still_busy. apply Z.eqb_neq. Qed.

Lemma Forall_busy_test tape :
  Forall (fun raw =>
            (Z.land (wrap32 raw) FLASH_SR_BSY =? FLASH_SR_BSY) = true) tape
  <-> Forall still_busy tape.
Proof. split; apply Forall_impl; intros raw; apply busy_test. Qed.

Lemma wait_Done_inv tape u tr rest :
  flash_wait_for_last_operation tape = Done u tr rest ->
  exists busy idle,
    tape = busy ++ idle :: rest /\
    Forall still_busy busy /\ ~ still_busy idle /\
    tr = wait_trace busy idle.
Proof.
  intros H. apply bind_Done_inv in H.
  destruct H as (a & tr1 & mid & tr2 & Hdsb & Hspin & ->).
  inversion Hdsb; subst.
  apply spin_Done_inv in Hspin.
  destruct Hspin as (busy & idle & -> & Hbusy & Hidle & ->).
  exists busy, idle. repeat split.
  - apply Forall_busy_test. exact Hbusy.
  - apply idle_test. exact Hidle.
Qed.

Lemma wait_Done busy idle rest :
  Forall still_busy busy -> ~ still_busy idle ->
  flash_wait_for_last_operation (busy ++ idle :: rest)
  = Done tt (wait_trace busy idle) rest.
Proof.
  intros Hbusy Hidle. unfold flash_wait_for_last_operation, bind.
  cbv [flash_pipeline_stall dsb].
  rewrite spin_Done.
  - reflexivity.
  - apply Forall_busy_test. exact Hbusy.
  - apply idle_test. exact Hidle.
Qed.

Lemma set_program_size_Done_inv psize tape u tr rest :
  flash_set_program_size psize tape = Done u tr rest ->
  exists c1 c2,
    tape = c1 :: c2 :: rest /\
    tr = rmw_and_not FLASH_CR c1
           (shl32 FLASH_CR_PROGRAM_MASK FLASH_CR_PROGRAM_SHIFT)
         ++ rmw_or FLASH_CR c2 (shl32 psize FLASH_CR_PROGRAM_SHIFT).
Proof.
  intros H. apply bind_Done_inv in H.
  destruct H as (a & tr1 & mid & tr2 & H1 & H2 & ->).
  apply and_not_assign_Done_inv in H1. destruct H1 as (c1 & -> & ->).
  apply or_assign_Done_inv in H2. destruct H2 as (c2 & -> & ->).
  exists c1, c2. split; reflexivity.
Qed.

End Running.

(** Take a returning run apart, call by call. *)
Ltac inv_run :=
  repeat match goal with
    | H : bind _ _ _ = Done _ _ _ |- _ =>
        apply bind_Done_inv in H;
        let a := fresh "a" in let tr1 := fresh "tr" in
        let mid := fresh "mid" in let tr2 := fresh "tr" in
        let H1 := fresh "Hrun" in let H2 := fresh "Hrun" in
        destruct H as (a & tr1 & mid & tr2 & H1 & H2 & ->)
    | H : flash_wait_for_last_operation _ = Done _ _ _ |- _ =>
        apply wait_Done_inv in H;
        let busy := fresh "busy" in let idle := fresh "idle" in
        let Hb := fresh "Hbusy" in let Hi := fresh "Hidle" in
        destruct H as (busy & idle & -> & Hb & Hi & ->)
    | H : flash_set_program_size _ _ = Done _ _ _ |- _ =>
        apply set_program_size_Done_inv in H;
        let c1 := fresh "c" in let c2 := fresh "c" in
        destruct H as (c1 & c2 & -> & ->)
    | H : or_assign _ _ _ = Done _ _ _ |- _ =>
        apply or_assign_Done_inv in H;
        let c := fresh "c" in destruct H as (c & -> & ->)
    | H : and_not_assign _ _ _ = Done _ _ _ |- _ =>
        apply and_not_assign_Done_inv in H;
        let c := fresh "c" in destruct H as (c & -> & ->)
    | H : write _ _ _ = Done _ _ _ |- _ =>
        apply write_Done_inv in H; destruct H as (-> & ->)
    | H : store _ _ _ _ = Done _ _ _ |- _ =>
        apply store_Done_inv in H; destruct H as (-> & ->)
    | H : read _ _ = Done _ _ _ |- _ =>
        apply read_Done_inv in H;
        let c := fresh "c" in destruct H as (c & -> & -> & ->)
    end.

Section Forward.

Context {hdr : flash_h}.

Lemma wait_Starved_inv tape tr :
  flash_wait_for_last_operation tape = Starved tr ->
  Forall still_busy tape /\ tr = EvDsb :: map (rd FLASH_SR) tape.
Proof.
  unfold flash_wait_for_last_operation, bind.
  cbv [flash_pipeline_stall dsb].
  destruct (spin _ _ tape) eqn:E; simpl; try discriminate.
  intros H; inversion H; subst.
  apply spin_Starved_inv in E. destruct E as (Hall & ->).
  split; [apply Forall_busy_test; exact Hall | reflexivity].
Qed.

Lemma wait_no_fault tape tr : flash_wait_for_last_operation tape <> Fault tr.
Proof.
  unfold flash_wait_for_last_operation, bind.
  cbv [flash_pipeline_stall dsb].
  destruct (spin _ _ tape) eqn:E; simpl; try discriminate.
  exfalso. eapply spin_no_fault. exact E.
Qed.

Lemma bind_wait {B : Type} (k : unit -> M B) busy idle rest :
  Forall still_busy busy -> ~ still_busy idle ->
  bind flash_wait_for_last_operation k (busy ++ idle :: rest)
  = prepend (wait_trace busy idle) (k tt rest).
Proof. intros Hb Hi. apply bind_Done. apply wait_Done; assumption. Qed.

Lemma bind_read {B : Type} r (k : Z -> M B) c rest :
  bind (read r) k (c :: rest) = prepend [rd r c] (k (wrap32 c) rest).
Proof. reflexivity. Qed.

Lemma bind_write {B : Type} r v (k : unit -> M B) tape :
  bind (write r v) k tape = prepend [EvWrite r v] (k tt tape).
Proof. reflexivity. Qed.

Lemma bind_store {B : Type} w a d (k : unit -> M B) tape :
  bind (store w a d) k tape = prepend [EvStore w a d] (k tt tape).
Proof. reflexivity. Qed.

Lemma bind_or_assign {B : Type} r bits (k : unit -> M B) c rest :
  bind (or_assign r bits) k (c :: rest)
  = prepend (rmw_or r c bits) (k tt rest).
Proof. reflexivity. Qed.

Lemma bind_and_not_assign {B : Type} r bits (k : unit -> M B) c rest :
  bind (and_not_assign r bits) k (c :: rest)
  = prepend (rmw_and_not r c bits) (k tt rest).
Proof. reflexivity. Qed.

Lemma bind_set_program_size {B : Type} psize (k : unit -> M B) c1 c2 rest :
  bind (flash_set_program_size psize) k (c1 :: c2 :: rest)
  = prepend
      (rmw_and_not FLASH_CR c1
         (shl32 FLASH_CR_PROGRAM_MASK FLASH_CR_PROGRAM_SHIFT)
       ++ rmw_or FLASH_CR c2 (shl32 psize FLASH_CR_PROGRAM_SHIFT))
      (k tt rest).
Proof. reflexivity. Qed.

Lemma or_assign_Done r bits c rest :
  or_assign r bits (c :: rest) = Done tt (rmw_or r c bits) rest.
Proof. reflexivity. Qed.

Lemma and_not_assign_Done r bits c rest :
  and_not_assign r bits (c :: rest) = Done tt (rmw_and_not r c bits) rest.
Proof. reflexivity. Qed.

End Forward.

(** Run a straight-line body on a tape of known shape. *)
Ltac run_fwd :=
  repeat first
    [ rewrite bind_wait by assumption
    | rewrite bind_set_program_size
    | rewrite bind_or_assign
    | rewrite bind_and_not_assign
    | rewrite bind_write
    | rewrite bind_store
    | rewrite bind_read
    | rewrite wait_Done by assumption
    | rewrite or_assign_Done
    | rewrite and_not_assign_Done
    | rewrite prepend_prepend ];
  cbn [prepend].

(** ** The views over the shapes of the driver's traces *)

Section Views.

Context {hdr : flash_h}.

Lemma writes_to_app r a b :
  writes_to r (a ++ b) = writes_to r a ++ writes_to r b.
Proof.
  induction a as [|e a IH]; simpl; [reflexivity|].
  destruct e; try assumption.
  destruct (reg_eqb r r0); simpl; congruence.
Qed.

Lemma writes_to_reads r r' l : writes_to r (map (rd r') l) = [].
Proof. induction l; simpl; auto. Qed.

Lemma writes_to_wait r busy idle : writes_to r (wait_trace busy idle) = [].
Proof.
  unfold wait_trace. simpl. rewrite writes_to_app, writes_to_reads.
  reflexivity.
Qed.

Lemma stores_app a b : stores (a ++ b) = stores a ++ stores b.
Proof.
  induction a as [|e a IH]; simpl; [reflexivity|].
  destruct e; simpl; congruence.
Qed.

Lemma stores_reads r l : stores (map (rd r) l) = [].
Proof. induction l; simpl; auto. Qed.

Lemma stores_wait busy idle : stores (wait_trace busy idle) = [].
Proof.
  unfold wait_trace. simpl. rewrite stores_app, stores_reads. reflexivity.
Qed.

Lemma bank_after_app r cur a b :
  bank_after r cur (a ++ b) = bank_after r (bank_after r cur a) b.
Proof.
  revert cur. induction a as [|e a IH]; intros cur; simpl; [reflexivity|].
  destruct e; apply IH.
Qed.

Lemma bank_coherent_app r cur a b :
  bank_coherent r cur (a ++ b)
  = bank_coherent r cur a && bank_coherent r (bank_after r cur a) b.
Proof.
  revert cur. induction a as [|e a IH]; intros cur; simpl; [reflexivity|].
  destruct e; rewrite ?IH, ?andb_assoc; reflexivity.
Qed.

Lemma bank_after_reads r r' cur l : bank_after r cur (map (rd r') l) = cur.
Proof. induction l; simpl; auto. Qed.

Lemma bank_after_wait r cur busy idle :
  bank_after r cur (wait_trace busy idle) = cur.
Proof.
  unfold wait_trace. simpl. rewrite bank_after_app, bank_after_reads.
  reflexivity.
Qed.

Lemma bank_coherent_reads r r' cur l :
  reg_eqb r r' = false -> bank_coherent r cur (map (rd r') l) = true.
Proof. intros H. induction l; simpl; rewrite ?H; auto. Qed.

Lemma bank_coherent_wait cur busy idle :
  bank_coherent FLASH_CR cur (wait_trace busy idle) = true.
Proof.
  unfold wait_trace. simpl.
  rewrite bank_coherent_app, bank_coherent_reads by reflexivity.
  reflexivity.
Qed.

Lemma bank_at_store_app_no_store r cur a b :
  stores a = [] ->
  bank_at_store r cur (a ++ b) = bank_at_store r (bank_after r cur a) b.
Proof.
  revert cur. induction a as [|e a IH]; intros cur; simpl; [reflexivity|].
  destruct e; simpl; intros H; try discriminate; apply IH; exact H.
Qed.

End Views.

(** ** Bit fields of a 32-bit register *)

Section Fields.

Lemma bits_below (x n : Z) :
  0 <= n -> 0 <= x < 2 ^ n ->
  forall j, n <= j -> Z.testbit x j = false.
Proof.
  intros Hn Hx j Hj.
  rewrite <- (Z.mod_small x (2 ^ n)) by assumption.
  rewrite Z.testbit_mod_pow2 by assumption.
  destruct (Z.ltb_spec j n); [lia | reflexivity].
Qed.

(** A field mask that fits the register has all its bits below 32. *)
Lemma field_bit_in_range (mask shift : Z) :
  0 <= shift -> 0 <= Z.shiftl mask shift < 2 ^ 32 ->
  forall i, 0 <= i -> Z.testbit mask i = true -> i + shift < 32.
Proof.
  intros Hs Hfit i Hi Hbit.
  destruct (Z_lt_ge_dec (i + shift) 32) as [Hlt|Hge]; [exact Hlt|exfalso].
  pose proof (bits_below _ 32 ltac:(lia) Hfit (i + shift) ltac:(lia)) as H.
  rewrite Z.shiftl_spec in H by lia.
  replace (i + shift - shift) with i in H by lia. congruence.
Qed.

Lemma land_zero_bit (a b i : Z) :
  Z.land a b = 0 -> Z.testbit a i && Z.testbit b i = false.
Proof. intros H. rewrite <- Z.land_spec, H. apply Z.bits_0. Qed.

(** Clearing a field and OR-ing a value into it leaves the value, cut to
    the field's mask, in the field. *)
Lemma field_insert (mask shift c n : Z) :
  0 <= shift -> 0 <= Z.shiftl mask shift < 2 ^ 32 ->
  Z.land
    (Z.shiftr
       (Z.lor (Z.land c (not32 (shl32 mask shift)))
              (shl32 (Z.land n mask) shift)) shift) mask
  = Z.land n mask.
Proof.
  intros Hs Hfit. unfold not32, shl32, wrap32.
  pose proof (field_bit_in_range mask shift Hs Hfit) as Hrange.
  apply Z.bits_inj'; intros i Hi. specialize (Hrange i Hi).
  rewrite !Z.land_spec, Z.shiftr_spec, Z.lor_spec, Z.land_spec by lia.
  rewrite !Z.testbit_mod_pow2, Z.lnot_spec, Z.testbit_mod_pow2 by lia.
  rewrite !Z.shiftl_spec, Z.land_spec by lia.
  replace (i + shift - shift) with i by lia.
  destruct (Z.testbit mask i).
  - destruct (Z.ltb_spec (i + shift) 32); [|specialize (Hrange eq_refl); lia].
    simpl. rewrite !andb_false_r, !andb_true_r. reflexivity.
  - rewrite !andb_false_r. reflexivity.
Qed.

(** Clearing a field leaves zero in it. *)
Lemma field_cleared (mask shift c : Z) :
  0 <= shift -> 0 <= Z.shiftl mask shift < 2 ^ 32 ->
  Z.land (Z.shiftr (Z.land c (not32 (shl32 mask shift))) shift) mask = 0.
Proof.
  intros Hs Hfit. unfold not32, shl32, wrap32.
  pose proof (field_bit_in_range mask shift Hs Hfit) as Hrange.
  apply Z.bits_inj'; intros i Hi. specialize (Hrange i Hi).
  rewrite Z.bits_0, Z.land_spec, Z.shiftr_spec, Z.land_spec by lia.
  rewrite Z.testbit_mod_pow2, Z.lnot_spec, Z.testbit_mod_pow2 by lia.
  rewrite Z.shiftl_spec by lia.
  replace (i + shift - shift) with i by lia.
  destruct (Z.testbit mask i).
  - destruct (Z.ltb_spec (i + shift) 32); [|specialize (Hrange eq_refl); lia].
    simpl. rewrite !andb_false_r. reflexivity.
  - rewrite !andb_false_r. reflexivity.
Qed.

(** Setting bits outside a field does not change the field. *)
Lemma field_lor_outside (mask shift x bits : Z) :
  0 <= shift -> 0 <= Z.shiftl mask shift < 2 ^ 32 ->
  Z.land bits (shl32 mask shift) = 0 ->
  Z.land (Z.shiftr (Z.lor x bits) shift) mask
  = Z.land (Z.shiftr x shift) mask.
Proof.
  intros Hs Hfit Hout. unfold shl32, wrap32 in Hout.
  pose proof (field_bit_in_range mask shift Hs Hfit) as Hrange.
  apply Z.bits_inj'; intros i Hi. specialize (Hrange i Hi).
  apply land_zero_bit with (i := i + shift) in Hout.
  rewrite Z.testbit_mod_pow2, Z.shiftl_spec in Hout by lia.
  replace (i + shift - shift) with i in Hout by lia.
  rewrite !Z.land_spec, !Z.shiftr_spec, Z.lor_spec by lia.
  destruct (Z.testbit mask i).
  - destruct (Z.ltb_spec (i + shift) 32); [|specialize (Hrange eq_refl); lia].
    simpl in Hout. rewrite andb_true_r in Hout. rewrite Hout.
    rewrite orb_false_r. reflexivity.
  - rewrite !andb_false_r. reflexivity.
Qed.

Lemma land_lor_same (x bits : Z) : Z.land (Z.lor x bits) bits = bits.
Proof.
  apply Z.bits_inj'; intros i Hi. rewrite Z.land_spec, Z.lor_spec.
  destruct (Z.testbit x i), (Z.testbit bits i); reflexivity.
Qed.

Lemma land_not32_same (x bits : Z) : Z.land (Z.land x (not32 bits)) bits = 0.
Proof.
  unfold not32, wrap32.
  apply Z.bits_inj'; intros i Hi.
  rewrite Z.bits_0, !Z.land_spec, Z.testbit_mod_pow2, Z.lnot_spec by lia.
  destruct (Z.testbit bits i); rewrite ?andb_false_r; reflexivity.
Qed.

End Fields.

Section Layout.

Context {hdr : flash_h} {ok : flash_h_ok hdr}.

Lemma armed_bit_below i :
  0 <= i -> Z.testbit cr_armed_bits i = true -> i < FLASH_CR_PROGRAM_SHIFT.
Proof.
  intros Hi Hbit.
  destruct (Z_lt_ge_dec i FLASH_CR_PROGRAM_SHIFT) as [Hlt|Hge];
    [exact Hlt|exfalso].
  rewrite (bits_below _ _ program_shift_nonneg armed_below_program_field)
    in Hbit by lia.
  discriminate.
Qed.

(** The program-enable bit lies outside the program-size field. *)
Lemma pg_outside_program_field :
  Z.land FLASH_CR_PG (shl32 FLASH_CR_PROGRAM_MASK FLASH_CR_PROGRAM_SHIFT) = 0.
Proof.
  pose proof program_shift_nonneg as Hs.
  unfold shl32, wrap32.
  apply Z.bits_inj'; intros i Hi.
  rewrite Z.bits_0, Z.land_spec, Z.testbit_mod_pow2 by lia.
  destruct (Z.testbit FLASH_CR_PG i) eqn:Hpg; [|reflexivity].
  assert (Z.testbit cr_armed_bits i = true) as Harmed.
  { unfold cr_armed_bits. rewrite !Z.lor_spec, Hpg. reflexivity. }
  apply armed_bit_below in Harmed; [|exact Hi].
  rewrite Z.shiftl_spec_low by lia. rewrite andb_false_r. reflexivity.
Qed.

(** The start strobe lies outside the sector-number field. *)
Lemma strt_outside_snb :
  Z.land FLASH_CR_STRT (shl32 FLASH_CR_SNB_MASK FLASH_CR_SNB_SHIFT) = 0.
Proof.
  apply Z.bits_inj'; intros i Hi.
  pose proof (land_zero_bit _ _ i strt_not_armed) as H.
  unfold cr_armed_bits in H. rewrite !Z.lor_spec in H.
  rewrite Z.bits_0, Z.land_spec.
  destruct (Z.testbit FLASH_CR_STRT i); [|reflexivity].
  destruct (Z.testbit (shl32 _ _) i); [|reflexivity].
  rewrite !orb_true_r in H. discriminate.
Qed.

(** The four parallelism encodings fit the program-size field. *)
Lemma parallelism_in_mask w :
  Z.land (parallelism w) FLASH_CR_PROGRAM_MASK = parallelism w.
Proof.
  pose proof program_mask_covers as H.
  apply Z.bits_inj'; intros i Hi.
  pose proof (f_equal (fun z => Z.testbit z i) H) as Hi3; cbv beta in Hi3.
  rewrite Z.land_spec in *.
  destruct (Z.testbit (parallelism w) i) eqn:Hw; [|reflexivity].
  assert (Z.testbit 3 i = true) as H3.
  { destruct (Z.eq_dec i 0) as [->|]; [reflexivity|].
    destruct (Z.eq_dec i 1) as [->|]; [reflexivity|].
    exfalso.
    rewrite (bits_below (parallelism w) 2) in Hw;
      [discriminate | lia | destruct w; simpl; lia | lia]. }
  rewrite H3 in Hi3. simpl in *. exact Hi3.
Qed.

End Layout.

Lemma stm32f7_ok : flash_h_ok stm32f7.
Proof.
  constructor; cbv; try (split; congruence); congruence.
Qed.

(** ** Properties of the driver *)

Section Properties.

Context {hdr : flash_h}.

(** C9: every invocation of [flash_wait_for_last_operation] emits the
    data-synchronisation barrier before its first status-register read and
    reads nothing but the status register; it returns at the first read
    that shows the busy flag clear, so every earlier read showed busy and
    the last one shows idle; while the hardware keeps answering busy it is
    still polling. *)
Theorem flash_wait_for_last_operation_barrier_then_poll (tape : list Z) :
  match flash_wait_for_last_operation tape with
  | Done _ tr rest =>
      exists busy idle,
        tape = busy ++ idle :: rest /\
        Forall still_busy busy /\ ~ still_busy idle /\
        tr = EvDsb :: map (rd FLASH_SR) busy ++ [rd FLASH_SR idle]
  | Starved tr =>
      Forall still_busy tape /\ tr = EvDsb :: map (rd FLASH_SR) tape
  | Fault _ => False
  end.
Proof.
  destruct (flash_wait_for_last_operation tape) as [u tr rest|tr|tr] eqn:E.
  - apply wait_Done_inv in E.
    destruct E as (busy & idle & Htape & Hbusy & Hidle & Htr).
    exists busy, idle. repeat split; assumption.
  - apply wait_Starved_inv. exact E.
  - eapply wait_no_fault. exact E.
Qed.

(** C3: [flash_unlock] sets the lock bit in the control register and then
    writes [0x45670123] and [0xCDEF89AB] to the key register, in that
    order and back to back; these are the only two key-register writes. *)
Theorem flash_unlock_key_sequence (cr : Z) (rest : list Z) :
  flash_unlock (cr :: rest)
  = Done tt
      (rmw_or FLASH_CR cr FLASH_CR_LOCK
       ++ [EvWrite FLASH_KEYR 0x45670123; EvWrite FLASH_KEYR 0xCDEF89AB])
      rest
  /\ writes_to FLASH_KEYR (emitted (flash_unlock (cr :: rest)))
     = [0x45670123; 0xCDEF89AB].
Proof. split; reflexivity. Qed.

Lemma program_primitive_unfold w address data :
  program_primitive w address data
  = (flash_wait_for_last_operation ;;
     flash_set_program_size (parallelism w) ;;
     or_assign FLASH_CR FLASH_CR_PG ;;
     store w address data ;;
     flash_wait_for_last_operation ;;
     and_not_assign FLASH_CR FLASH_CR_PG).
Proof. destruct w; reflexivity. Qed.

(** A program primitive returns exactly when the hardware goes idle twice,
    and its trace is then the program cycle. *)
Lemma program_primitive_Done_inv w address data tape u tr rest :
  program_primitive w address data tape = Done u tr rest ->
  exists busy1 idle1 c1 c2 c3 busy2 idle2 c4,
    tape = program_tape busy1 idle1 c1 c2 c3 busy2 idle2 c4 rest /\
    Forall still_busy busy1 /\ ~ still_busy idle1 /\
    Forall still_busy busy2 /\ ~ still_busy idle2 /\
    tr = program_trace w address data busy1 idle1 c1 c2 c3 busy2 idle2 c4.
Proof.
  rewrite program_primitive_unfold. intros H. inv_run.
  do 8 eexists. unfold program_tape, program_trace.
  split; [reflexivity|].
  repeat (split; [eassumption|]).
  rewrite <- !app_assoc. reflexivity.
Qed.

Lemma program_primitive_Done w address data
    busy1 idle1 c1 c2 c3 busy2 idle2 c4 rest :
  Forall still_busy busy1 -> ~ still_busy idle1 ->
  Forall still_busy busy2 -> ~ still_busy idle2 ->
  program_primitive w address data
    (program_tape busy1 idle1 c1 c2 c3 busy2 idle2 c4 rest)
  = Done tt
      (program_trace w address data busy1 idle1 c1 c2 c3 busy2 idle2 c4)
      rest.
Proof.
  intros Hb1 Hi1 Hb2 Hi2.
  rewrite program_primitive_unfold. unfold program_tape, program_trace.
  run_fwd. rewrite <- !app_assoc. reflexivity.
Qed.

Lemma stores_program_trace w address data
    busy1 idle1 c1 c2 c3 busy2 idle2 c4 :
  stores (program_trace w address data busy1 idle1 c1 c2 c3 busy2 idle2 c4)
  = [(w, address, data)].
Proof.
  unfold program_trace.
  rewrite !stores_app, !stores_wait. reflexivity.
Qed.

End Properties.

Section ProgramCycle.

Context {hdr : flash_h} {ok : flash_h_ok hdr}.

(** With the control register a cell of a register bank, the store of a
    program cycle is issued while the program-size field holds the
    encoding of the primitive's width and the program-enable bit is set. *)
Lemma program_trace_at_store w address data
    busy1 idle1 c1 c2 c3 busy2 idle2 c4 cr0 :
  bank_coherent FLASH_CR cr0
    (program_trace w address data busy1 idle1 c1 c2 c3 busy2 idle2 c4)
  = true ->
  exists v,
    bank_at_store FLASH_CR cr0
      (program_trace w address data busy1 idle1 c1 c2 c3 busy2 idle2 c4)
    = Some v /\
    program_size_field v = parallelism w /\
    Z.land v FLASH_CR_PG = FLASH_CR_PG.
Proof.
  unfold program_trace.
  rewrite bank_coherent_app, bank_coherent_wait, bank_after_wait.
  rewrite bank_at_store_app_no_store by apply stores_wait.
  rewrite bank_after_wait.
  cbn [app rmw_and_not rmw_or rd bank_coherent bank_at_store reg_eqb andb].
  intros H.
  apply andb_true_iff in H. destruct H as (_ & H).
  apply andb_true_iff in H. destruct H as (H2 & H).
  apply andb_true_iff in H. destruct H as (H3 & _).
  apply Z.eqb_eq in H2, H3.
  eexists. split; [reflexivity|]. split; [|apply land_lor_same].
  rewrite H3, H2. unfold program_size_field.
  rewrite field_lor_outside
    by (try apply pg_outside_program_field;
        auto using program_shift_nonneg, program_field_fits).
  rewrite <- (parallelism_in_mask w) at 1.
  rewrite field_insert by auto using program_shift_nonneg, program_field_fits.
  apply parallelism_in_mask.
Qed.

(** C1: every program primitive, for every address and datum, emits the
    program cycle: wait idle; clear the program-size field and write the
    encoding 0/1/2/3 of the primitive's width into it; set the
    program-enable bit; one store of the datum at the address with the
    primitive's width; wait idle; clear the program-enable bit.  The store
    is the only one, it comes after the write that sets the program-enable
    bit and before the write that clears it, and, with the control register
    a cell of a register bank, it is issued while the program-size field
    holds the encoding and the program-enable bit is set.  The primitive
    returns whenever the hardware goes idle in both waits. *)
Theorem program_primitive_cycle :
  (forall w address data tape tr rest,
      program_primitive w address data tape = Done tt tr rest ->
      exists busy1 idle1 c1 c2 c3 busy2 idle2 c4,
        tape = program_tape busy1 idle1 c1 c2 c3 busy2 idle2 c4 rest /\
        Forall still_busy busy1 /\ ~ still_busy idle1 /\
        Forall still_busy busy2 /\ ~ still_busy idle2 /\
        tr = program_trace w address data
               busy1 idle1 c1 c2 c3 busy2 idle2 c4 /\
        stores tr = [(w, address, data)] /\
        forall cr0,
          bank_coherent FLASH_CR cr0 tr = true ->
          exists v,
            bank_at_store FLASH_CR cr0 tr = Some v /\
            program_size_field v = parallelism w /\
            Z.land v FLASH_CR_PG = FLASH_CR_PG)
  /\
  (forall w address data busy1 idle1 c1 c2 c3 busy2 idle2 c4 rest,
      Forall still_busy busy1 -> ~ still_busy idle1 ->
      Forall still_busy busy2 -> ~ still_busy idle2 ->
      program_primitive w address data
        (program_tape busy1 idle1 c1 c2 c3 busy2 idle2 c4 rest)
      = Done tt
          (program_trace w address data
             busy1 idle1 c1 c2 c3 busy2 idle2 c4)
          rest).
Proof.
  split.
  - intros w address data tape tr rest Hrun.
    apply program_primitive_Done_inv in Hrun.
    destruct Hrun as (busy1 & idle1 & c1 & c2 & c3 & busy2 & idle2 & c4
                      & Htape & Hb1 & Hi1 & Hb2 & Hi2 & Htr).
    exists busy1, idle1, c1, c2, c3, busy2, idle2, c4.
    repeat (split; [assumption|]).
    subst tr. split; [apply stores_program_trace|].
    intros cr0. apply program_trace_at_store.
  - intros. apply program_primitive_Done; assumption.
Qed.

End ProgramCycle.

Section BulkProgram.

Context {hdr : flash_h}.

Lemma load_Done_inv data i tape d tr rest :
  load data i tape = Done d tr rest ->
  nth_error data i = Some d /\ tape = rest /\ tr = [].
Proof.
  unfold load. destruct (nth_error data i) as [d'|]; cbv [ret fault];
    intros H; inversion H; subst.
  repeat split.
Qed.



Lemma skipn_nth_error {A : Type} (l : list A) i x :
  nth_error l i = Some x -> skipn i l = x :: skipn (S i) l.
Proof.
  revert l. induction i as [|i IH]; intros [|y l]; simpl; try discriminate.
  - intros H. inversion H. reflexivity.
  - intros H. apply IH in H. exact H.
Qed.

(** A returning run of the loop has consumed one cycle's answers per
    index left, each with both waits settling, and has emitted the byte
    cycles of the bytes from index [i] on. *)
Lemma flash_program_from_Done_shape address data todo :
  forall i tape u tr rest,
    flash_program_from address data i todo tape = Done u tr rest ->
    exists qs,
      length qs = todo /\ Forall cycle_settles qs /\
      tape = bulk_tape qs rest /\
      tr = bulk_trace address i (skipn i data) qs.
Proof.
  induction todo as [|todo IH]; intros i tape u tr rest H; simpl in H.
  - cbv [ret] in H. inversion H; subst.
    exists []. repeat split. constructor.
  - apply bind_Done_inv in H.
    destruct H as (d & tr0 & mid0 & tr' & Hload & H & ->).
    apply load_Done_inv in Hload. destruct Hload as (Hd & -> & ->).
    apply bind_Done_inv in H.
    destruct H as (u1 & c & mid1 & tr2 & Hbyte & Hrest & ->).
    apply (program_primitive_Done_inv MMIO8) in Hbyte.
    destruct Hbyte as (busy1 & idle1 & c1 & c2 & c3 & busy2 & idle2 & c4
                       & -> & Hb1 & Hi1 & Hb2 & Hi2 & ->).
    apply IH in Hrest. destruct Hrest as (qs & Hlen & Hqs & -> & ->).
    exists ({| polls_before := busy1; idle_before := idle1;
               cr_clear := c1; cr_size := c2; cr_enable := c3;
               polls_after := busy2; idle_after := idle2;
               cr_disable := c4 |} :: qs).
    split; [simpl; rewrite Hlen; reflexivity|].
    split; [constructor; [repeat split; assumption | exact Hqs]|].
    split; [reflexivity|].
    rewrite (skipn_nth_error _ _ _ Hd). reflexivity.
Qed.


Lemma stores_bulk_trace address qs :
  forall i data,
    stores (bulk_trace address i data qs)
    = map (fun p => (MMIO8, add32 address (Z.of_nat (fst p)), snd p))
          (combine (seq i (length qs)) data).
Proof.
  induction qs as [|q qs IH]; intros i [|d data]; try reflexivity.
  cbn [bulk_trace length seq combine map fst snd]. unfold cycle_trace.
  rewrite stores_app, stores_program_trace, IH. reflexivity.
Qed.



End BulkProgram.

Section OptionBytes.

Context {hdr : flash_h}.

Lemma flash_unlock_option_bytes_Done o2 rest :
  flash_unlock_option_bytes (o2 :: rest)
  = Done tt (unlock_option_trace o2) rest.
Proof. reflexivity. Qed.

Lemma flash_unlock_option_bytes_Done_inv tape u tr rest :
  flash_unlock_option_bytes tape = Done u tr rest ->
  exists o2, tape = o2 :: rest /\ tr = unlock_option_trace o2.
Proof.
  destruct tape as [|o2 tape']; intros H; [discriminate|].
  rewrite flash_unlock_option_bytes_Done in H. inversion H; subst.
  exists o2. split; reflexivity.
Qed.

Lemma option_bytes_low_bits_zero data :
  Z.land (Z.land data (not32 0x3)) 0x3 = 0.
Proof. apply land_not32_same. Qed.

Lemma flash_program_option_bytes_Done_inv data tape u tr rest :
  flash_program_option_bytes data tape = Done u tr rest ->
  exists busy1 idle1 o1 o2 o3 busy2 idle2,
    tape = option_bytes_tape busy1 idle1 o1 o2 o3 busy2 idle2 rest /\
    Forall still_busy busy1 /\ ~ still_busy idle1 /\
    Forall still_busy busy2 /\ ~ still_busy idle2 /\
    tr = option_bytes_trace data busy1 idle1 o1 o2 o3 busy2 idle2.
Proof.
  unfold flash_program_option_bytes. intros H.
  apply bind_Done_inv in H.
  destruct H as (u1 & tr1 & mid1 & tr1' & Hwait1 & H & ->).
  apply bind_Done_inv in H.
  destruct H as (v & tr2 & mid2 & tr2' & Hread & H & ->).
  apply bind_Done_inv in H.
  destruct H as (u3 & tr3 & mid3 & tr3' & Hlock & H & ->).
  apply bind_Done_inv in H.
  destruct H as (u4 & tr4 & mid4 & tr4' & Hwrite & H & ->).
  apply bind_Done_inv in H.
  destruct H as (u5 & tr5 & mid5 & tr5' & Hstrt & Hwait2 & ->).
  apply wait_Done_inv in Hwait2.
  destruct Hwait2 as (busy2 & idle2 & -> & Hb2 & Hi2 & ->).
  apply or_assign_Done_inv in Hstrt. destruct Hstrt as (o3 & -> & ->).
  apply write_Done_inv in Hwrite. destruct Hwrite as (-> & ->).
  apply read_Done_inv in Hread. destruct Hread as (o1 & -> & -> & ->).
  apply wait_Done_inv in Hwait1.
  destruct Hwait1 as (busy1 & idle1 & -> & Hb1 & Hi1 & ->).
  unfold option_bytes_tape, option_bytes_trace.
  change (negb (Z.land (wrap32 o1) FLASH_OPTCR_OPTLOCK =? 0))
    with (option_locked o1) in Hlock.
  destruct (option_locked o1) eqn:Hlocked.
  - apply flash_unlock_option_bytes_Done_inv in Hlock.
    destruct Hlock as (o2 & -> & ->).
    exists busy1, idle1, o1, o2, o3, busy2, idle2. rewrite Hlocked.
    repeat (split; [first [reflexivity | assumption]|]).
    rewrite <- ?app_assoc. reflexivity.
  - cbv [ret] in Hlock. inversion Hlock; subst.
    exists busy1, idle1, o1, 0, o3, busy2, idle2. rewrite Hlocked.
    repeat (split; [first [reflexivity | assumption]|]).
    rewrite <- ?app_assoc. reflexivity.
Qed.

Lemma flash_program_option_bytes_Done data
    busy1 idle1 o1 o2 o3 busy2 idle2 rest :
  Forall still_busy busy1 -> ~ still_busy idle1 ->
  Forall still_busy busy2 -> ~ still_busy idle2 ->
  flash_program_option_bytes data
    (option_bytes_tape busy1 idle1 o1 o2 o3 busy2 idle2 rest)
  = Done tt (option_bytes_trace data busy1 idle1 o1 o2 o3 busy2 idle2) rest.
Proof.
  intros Hb1 Hi1 Hb2 Hi2.
  unfold flash_program_option_bytes, option_bytes_tape, option_bytes_trace.
  run_fwd.
  change (negb (Z.land (wrap32 o1) FLASH_OPTCR_OPTLOCK =? 0))
    with (option_locked o1).
  destruct (option_locked o1).
  - cbn [app].
    erewrite bind_Done by apply flash_unlock_option_bytes_Done.
    run_fwd. rewrite <- !app_assoc. reflexivity.
  - cbn [app]. unfold bind at 1. cbv [ret]. rewrite prepend_nil.
    run_fwd. rewrite <- !app_assoc. reflexivity.
Qed.

Lemma option_bytes_trace_key_writes data busy1 idle1 o1 o2 o3 busy2 idle2 :
  writes_to FLASH_OPTKEYR
    (option_bytes_trace data busy1 idle1 o1 o2 o3 busy2 idle2)
  = if option_locked o1 then [0x08192A3B; 0x4C5D6E7F] else [].
Proof.
  unfold option_bytes_trace.
  rewrite !writes_to_app, !writes_to_wait.
  destruct (option_locked o1); reflexivity.
Qed.

Lemma option_bytes_trace_optcr_writes data
    busy1 idle1 o1 o2 o3 busy2 idle2 :
  writes_to FLASH_OPTCR
    (option_bytes_trace data busy1 idle1 o1 o2 o3 busy2 idle2)
  = (if option_locked o1
     then [Z.lor (wrap32 o2) FLASH_OPTCR_OPTLOCK] else [])
    ++ [Z.land data (not32 0x3); Z.lor (wrap32 o3) FLASH_OPTCR_OPTSTRT].
Proof.
  unfold option_bytes_trace.
  rewrite !writes_to_app, !writes_to_wait.
  destruct (option_locked o1); reflexivity.
Qed.

(** C8: [flash_program_option_bytes x] waits idle; reads the
    option-control register and runs [flash_unlock_option_bytes] (set the
    option-lock bit, then the keys [0x08192A3B] and [0x4C5D6E7F] to the
    option-key register) exactly when that read shows the option-lock bit
    set; writes [x & ~0x3], whose low two bits are zero, to the
    option-control register; sets the option-start bit with a
    read-modify-write; and waits idle.  It returns whenever the hardware
    goes idle in both waits. *)
Theorem flash_program_option_bytes_sequence (data : Z) :
  (forall tape tr rest,
      flash_program_option_bytes data tape = Done tt tr rest ->
      exists busy1 idle1 o1 o2 o3 busy2 idle2,
        tape = option_bytes_tape busy1 idle1 o1 o2 o3 busy2 idle2 rest /\
        Forall still_busy busy1 /\ ~ still_busy idle1 /\
        Forall still_busy busy2 /\ ~ still_busy idle2 /\
        tr = option_bytes_trace data busy1 idle1 o1 o2 o3 busy2 idle2 /\
        writes_to FLASH_OPTKEYR tr
        = (if option_locked o1 then [0x08192A3B; 0x4C5D6E7F] else []) /\
        writes_to FLASH_OPTCR tr
        = (if option_locked o1
           then [Z.lor (wrap32 o2) FLASH_OPTCR_OPTLOCK] else [])
          ++ [Z.land data (not32 0x3);
              Z.lor (wrap32 o3) FLASH_OPTCR_OPTSTRT])
  /\ Z.land (Z.land data (not32 0x3)) 0x3 = 0
  /\ (forall o2 rest,
         flash_unlock_option_bytes (o2 :: rest)
         = Done tt (unlock_option_trace o2) rest)
  /\ (forall busy1 idle1 o1 o2 o3 busy2 idle2 rest,
         Forall still_busy busy1 -> ~ still_busy idle1 ->
         Forall still_busy busy2 -> ~ still_busy idle2 ->
         flash_program_option_bytes data
           (option_bytes_tape busy1 idle1 o1 o2 o3 busy2 idle2 rest)
         = Done tt
             (option_bytes_trace data busy1 idle1 o1 o2 o3 busy2 idle2)
             rest).
Proof.
  split; [|split; [|split]].
  - intros tape tr rest H.
    apply flash_program_option_bytes_Done_inv in H.
    destruct H as (busy1 & idle1 & o1 & o2 & o3 & busy2 & idle2
                   & Htape & Hb1 & Hi1 & Hb2 & Hi2 & ->).
    exists busy1, idle1, o1, o2, o3, busy2, idle2.
    repeat (split; [assumption|]).
    split; [reflexivity|].
    split; [apply option_bytes_trace_key_writes
           |apply option_bytes_trace_optcr_writes].
  - apply option_bytes_low_bits_zero.
  - intros. apply flash_unlock_option_bytes_Done.
  - intros. apply flash_program_option_bytes_Done; assumption.
Qed.

End OptionBytes.

Section WaitStates.

Context {hdr : flash_h}.

Lemma set_ws_unfold ws r rest :
  flash_set_ws ws (r :: rest)
  = prepend [rd FLASH_ACR r; EvWrite FLASH_ACR (set_ws_written ws r)]
      (spin FLASH_ACR (latency_differs ws) rest).
Proof.
  unfold flash_set_ws. rewrite bind_read, bind_write, prepend_prepend.
  reflexivity.
Qed.

Lemma latency_differs_true ws raw :
  latency_differs ws (wrap32 raw) = true
  <-> latency_field (wrap32 raw) <> ws.
Proof.
  unfold latency_differs, latency_field.
  rewrite negb_true_iff. apply Z.eqb_neq.
Qed.

Lemma latency_differs_false ws raw :
  latency_differs ws (wrap32 raw) = false
  <-> latency_field (wrap32 raw) = ws.
Proof.
  unfold latency_differs, latency_field.
  rewrite negb_false_iff. apply Z.eqb_eq.
Qed.

Lemma flash_set_ws_Done_inv ws tape u tr rest :
  flash_set_ws ws tape = Done u tr rest ->
  exists r polls last,
    tape = r :: polls ++ last :: rest /\
    Forall (fun p => latency_field (wrap32 p) <> ws) polls /\
    latency_field (wrap32 last) = ws /\
    tr = set_ws_trace ws r polls last.
Proof.
  destruct tape as [|r tape']; [discriminate|].
  rewrite set_ws_unfold. intros H.
  apply prepend_Done_inv in H. destruct H as (tr' & H & ->).
  apply spin_Done_inv in H.
  destruct H as (polls & last & -> & Hpolls & Hlast & ->).
  exists r, polls, last. repeat split.
  - revert Hpolls. apply Forall_impl. intros p. apply latency_differs_true.
  - apply latency_differs_false. exact Hlast.
Qed.

Lemma flash_set_ws_Done ws r polls last rest :
  Forall (fun p => latency_field (wrap32 p) <> ws) polls ->
  latency_field (wrap32 last) = ws ->
  flash_set_ws ws (r :: polls ++ last :: rest)
  = Done tt (set_ws_trace ws r polls last) rest.
Proof.
  intros Hpolls Hlast. rewrite set_ws_unfold, spin_Done.
  - reflexivity.
  - revert Hpolls. apply Forall_impl. intros p. apply latency_differs_true.
  - apply latency_differs_false. exact Hlast.
Qed.

(** A value with a bit outside the latency mask is never the latency
    field of a register value. *)
Lemma latency_field_within_mask (acr : Z) :
  Z.land (latency_field acr) (Z.lnot FLASH_ACR_LATENCY_MASK) = 0.
Proof.
  unfold latency_field. rewrite <- Z.land_assoc, Z.land_lnot_diag.
  apply Z.land_0_r.
Qed.



Lemma within_mask_bit ws i :
  Z.land ws (Z.lnot FLASH_ACR_LATENCY_MASK) = 0 ->
  Z.testbit FLASH_ACR_LATENCY_MASK i = false -> Z.testbit ws i = false.
Proof.
  intros Hin Hmask.
  destruct (Z.ltb_spec i 0) as [Hneg|Hpos];
    [apply Z.testbit_neg_r; exact Hneg|].
  pose proof (land_zero_bit _ _ i Hin) as H.
  rewrite Z.lnot_spec, Hmask in H by exact Hpos.
  rewrite andb_true_r in H. exact H.
Qed.

(** The written value carries [ws] in the latency field and the bits read
    everywhere else, as long as [ws] has no bit outside the mask. *)
Lemma set_ws_written_latency ws r :
  Z.land ws (Z.lnot FLASH_ACR_LATENCY_MASK) = 0 ->
  latency_field (set_ws_written ws r) = ws.
Proof.
  intros Hin. unfold latency_field, set_ws_written, not32, wrap32.
  apply Z.bits_inj'; intros i Hi.
  rewrite Z.land_spec, Z.lor_spec, Z.land_spec.
  rewrite !Z.testbit_mod_pow2, Z.lnot_spec by lia.
  destruct (Z.testbit FLASH_ACR_LATENCY_MASK i) eqn:Hmask.
  - simpl. rewrite !andb_false_r, andb_true_r. reflexivity.
  - rewrite (within_mask_bit ws i Hin Hmask), andb_false_r. reflexivity.
Qed.

Lemma set_ws_written_frame ws r i :
  Z.land ws (Z.lnot FLASH_ACR_LATENCY_MASK) = 0 ->
  Z.testbit FLASH_ACR_LATENCY_MASK i = false ->
  Z.testbit (set_ws_written ws r) i = Z.testbit (wrap32 r) i.
Proof.
  intros Hin Hmask.
  destruct (Z.ltb_spec i 0) as [Hneg|Hpos];
    [rewrite !Z.testbit_neg_r by exact Hneg; reflexivity|].
  unfold set_ws_written, not32, wrap32.
  rewrite Z.lor_spec, Z.land_spec.
  rewrite !Z.testbit_mod_pow2, Z.lnot_spec by lia.
  rewrite (within_mask_bit ws i Hin Hmask), Hmask, orb_false_r.
  destruct (i <? 32), (Z.testbit r i); reflexivity.
Qed.


(** C6: [flash_set_ws n] reads the access-control register and writes
    back the value read with the latency field masked out and [n] ORed
    in.  When [n] has no bit outside the latency mask - as in every call
    that returns - the written value has [n] in the latency field and
    every bit outside the field as it was read.  The call returns at the
    first later read of the register that shows the latency field equal to
    [n], and not before. *)
Theorem flash_set_ws_rmw_then_readback (ws : Z) :
  (forall r rest,
      exists polls,
        emitted (flash_set_ws ws (r :: rest))
        = rd FLASH_ACR r :: EvWrite FLASH_ACR (set_ws_written ws r)
            :: map (rd FLASH_ACR) polls)
  /\ (forall r,
         Z.land ws (Z.lnot FLASH_ACR_LATENCY_MASK) = 0 ->
         latency_field (set_ws_written ws r) = ws /\
         forall i,
           Z.testbit FLASH_ACR_LATENCY_MASK i = false ->
           Z.testbit (set_ws_written ws r) i = Z.testbit (wrap32 r) i)
  /\ (forall tape tr rest,
         flash_set_ws ws tape = Done tt tr rest ->
         Z.land ws (Z.lnot FLASH_ACR_LATENCY_MASK) = 0 /\
         exists r polls last,
           tape = r :: polls ++ last :: rest /\
           Forall (fun p => latency_field (wrap32 p) <> ws) polls /\
           latency_field (wrap32 last) = ws /\
           tr = set_ws_trace ws r polls last)
  /\ (forall r polls last rest,
         Forall (fun p => latency_field (wrap32 p) <> ws) polls ->
         latency_field (wrap32 last) = ws ->
         flash_set_ws ws (r :: polls ++ last :: rest)
         = Done tt (set_ws_trace ws r polls last) rest).
Proof.
  split; [|split; [|split]].
  - intros r rest. rewrite set_ws_unfold, emitted_prepend.
    destruct (spin FLASH_ACR (latency_differs ws) rest)
      as [u tr rest'|tr|tr] eqn:E.
    + apply spin_Done_inv in E.
      destruct E as (pre & last & _ & _ & _ & ->).
      exists (pre ++ [last]). simpl. rewrite map_app. reflexivity.
    + apply spin_Starved_inv in E. destruct E as (_ & ->).
      exists rest. reflexivity.
    + exfalso. eapply spin_no_fault. exact E.
  - intros r Hin. split.
    + apply set_ws_written_latency. exact Hin.
    + intros i. apply set_ws_written_frame. exact Hin.
  - intros tape tr rest H. apply flash_set_ws_Done_inv in H.
    destruct H as (r & polls & last & Htape & Hpolls & Hlast & Htr).
    split.
    + rewrite <- Hlast. apply latency_field_within_mask.
    + exists r, polls, last. repeat split; assumption.
  - intros. apply flash_set_ws_Done; assumption.
Qed.


End WaitStates.

Section Erase.

Context {hdr : flash_h}.

Lemma flash_erase_all_sectors_Done_inv program_size tape u tr rest :
  flash_erase_all_sectors program_size tape = Done u tr rest ->
  exists busy1 idle1 c1 c2 c3 c4 busy2 idle2 c5,
    tape = erase_all_tape busy1 idle1 c1 c2 c3 c4 busy2 idle2 c5 rest /\
    Forall still_busy busy1 /\ ~ still_busy idle1 /\
    Forall still_busy busy2 /\ ~ still_busy idle2 /\
    tr = erase_all_trace program_size
           busy1 idle1 c1 c2 c3 c4 busy2 idle2 c5.
Proof.
  unfold flash_erase_all_sectors. intros H. inv_run.
  do 9 eexists. unfold erase_all_tape, erase_all_trace.
  split; [reflexivity|].
  repeat (split; [eassumption|]).
  rewrite <- !app_assoc. reflexivity.
Qed.

Lemma flash_erase_all_sectors_Done program_size
    busy1 idle1 c1 c2 c3 c4 busy2 idle2 c5 rest :
  Forall still_busy busy1 -> ~ still_busy idle1 ->
  Forall still_busy busy2 -> ~ still_busy idle2 ->
  flash_erase_all_sectors program_size
    (erase_all_tape busy1 idle1 c1 c2 c3 c4 busy2 idle2 c5 rest)
  = Done tt
      (erase_all_trace program_size busy1 idle1 c1 c2 c3 c4 busy2 idle2 c5)
      rest.
Proof.
  intros Hb1 Hi1 Hb2 Hi2.
  unfold flash_erase_all_sectors, erase_all_tape, erase_all_trace.
  run_fwd. rewrite <- !app_assoc. reflexivity.
Qed.

Lemma flash_erase_sector_Done_inv sector program_size tape u tr rest :
  flash_erase_sector sector program_size tape = Done u tr rest ->
  exists busy1 idle1 c1 c2 c3 c4 c5 c6 busy2 idle2 c7 c8,
    tape = erase_sector_tape
             busy1 idle1 c1 c2 c3 c4 c5 c6 busy2 idle2 c7 c8 rest /\
    Forall still_busy busy1 /\ ~ still_busy idle1 /\
    Forall still_busy busy2 /\ ~ still_busy idle2 /\
    tr = erase_sector_trace sector program_size
           busy1 idle1 c1 c2 c3 c4 c5 c6 busy2 idle2 c7 c8.
Proof.
  unfold flash_erase_sector. intros H. inv_run.
  do 12 eexists. unfold erase_sector_tape, erase_sector_trace.
  split; [reflexivity|].
  repeat (split; [eassumption|]).
  rewrite <- !app_assoc. reflexivity.
Qed.

Lemma flash_erase_sector_Done sector program_size
    busy1 idle1 c1 c2 c3 c4 c5 c6 busy2 idle2 c7 c8 rest :
  Forall still_busy busy1 -> ~ still_busy idle1 ->
  Forall still_busy busy2 -> ~ still_busy idle2 ->
  flash_erase_sector sector program_size
    (erase_sector_tape busy1 idle1 c1 c2 c3 c4 c5 c6 busy2 idle2 c7 c8 rest)
  = Done tt
      (erase_sector_trace sector program_size
         busy1 idle1 c1 c2 c3 c4 c5 c6 busy2 idle2 c7 c8)
      rest.
Proof.
  intros Hb1 Hi1 Hb2 Hi2.
  unfold flash_erase_sector, erase_sector_tape, erase_sector_trace.
  run_fwd. rewrite <- !app_assoc. reflexivity.
Qed.

Lemma bank_coherent_wait_app cur busy idle tr :
  bank_coherent FLASH_CR cur (wait_trace busy idle ++ tr)
  = bank_coherent FLASH_CR cur tr.
Proof.
  rewrite bank_coherent_app, bank_coherent_wait, bank_after_wait.
  reflexivity.
Qed.

Lemma bank_after_wait_app r cur busy idle tr :
  bank_after r cur (wait_trace busy idle ++ tr) = bank_after r cur tr.
Proof. rewrite bank_after_app, bank_after_wait. reflexivity. Qed.

Lemma not32_spec x i :
  0 <= i -> Z.testbit (not32 x) i = (i <? 32) && negb (Z.testbit x i).
Proof.
  intros Hi. unfold not32, wrap32.
  rewrite Z.testbit_mod_pow2, Z.lnot_spec by lia. reflexivity.
Qed.

Lemma shl32_low x s i : 0 <= i < s -> Z.testbit (shl32 x s) i = false.
Proof.
  intros Hi. unfold shl32, wrap32.
  rewrite Z.testbit_mod_pow2, Z.shiftl_spec_low by lia.
  apply andb_false_r.
Qed.

Lemma shl32_land x m s i :
  0 <= i ->
  Z.testbit (shl32 (Z.land x m) s) i
  = Z.testbit (shl32 x s) i && Z.testbit (shl32 m s) i.
Proof.
  intros Hi. unfold shl32, wrap32.
  rewrite !Z.testbit_mod_pow2, !Z.shiftl_spec, Z.land_spec by lia.
  btauto.
Qed.

End Erase.

(** Read the chain of equations out of a coherence hypothesis: every
    value read from the bank cell is the value last written. *)
Ltac coherent_chain H :=
  repeat rewrite ?bank_coherent_wait_app, ?bank_after_wait_app in H;
  cbn [app rmw_and_not rmw_or rd bank_coherent bank_after reg_eqb andb] in H;
  repeat rewrite ?bank_coherent_wait_app, ?bank_after_wait_app in H;
  cbn [app rmw_and_not rmw_or rd bank_coherent bank_after reg_eqb andb] in H;
  repeat match type of H with
         | (_ && _) = true =>
             let H' := fresh "Hread" in
             apply andb_true_iff in H; destruct H as (H' & H);
             apply Z.eqb_eq in H'
         end.

Ltac bank_after_simpl :=
  repeat rewrite ?bank_after_wait_app;
  cbn [app rmw_and_not rmw_or rd bank_after reg_eqb];
  repeat rewrite ?bank_after_wait_app;
  cbn [app rmw_and_not rmw_or rd bank_after reg_eqb].

(** Replace every value read by the value the bank cell held. *)
Ltac follow_chain :=
  repeat match goal with
         | H : wrap32 _ = _ |- _ => rewrite H; clear H
         end.

Ltac testbits i :=
  repeat rewrite ?Z.land_spec, ?Z.lor_spec, ?not32_spec, ?shl32_land by lia.

Section Cleanliness.

Context {hdr : flash_h} {ok : flash_h_ok hdr}.

(** A bit the driver arms is clear in a value [x] when it is clear in
    everything [x] is built from. *)
Lemma armed_bits_clear (cr0 x : Z) :
  Z.land cr0 cr_armed_bits = 0 ->
  (forall i, 0 <= i ->
             Z.testbit cr_armed_bits i = true ->
             Z.testbit cr0 i = false ->
             Z.testbit FLASH_CR_STRT i = false ->
             (forall p, Z.testbit (shl32 p FLASH_CR_PROGRAM_SHIFT) i = false) ->
             Z.testbit x i = false) ->
  Z.land x cr_armed_bits = 0.
Proof.
  intros Hclean Hbits.
  apply Z.bits_inj'; intros i Hi. rewrite Z.bits_0, Z.land_spec.
  destruct (Z.testbit cr_armed_bits i) eqn:Harmed; [|apply andb_false_r].
  rewrite andb_true_r.
  pose proof (land_zero_bit _ _ i Hclean) as Hcr0.
  pose proof (land_zero_bit _ _ i strt_not_armed) as Hstrt.
  rewrite Harmed, andb_true_r in Hcr0, Hstrt.
  pose proof (armed_bit_below i Hi Harmed) as Hlow.
  apply Hbits; try assumption.
  intros p. apply shl32_low. lia.
Qed.

Lemma erase_all_clean program_size
    busy1 idle1 c1 c2 c3 c4 busy2 idle2 c5 cr0 :
  let tr := erase_all_trace program_size
              busy1 idle1 c1 c2 c3 c4 busy2 idle2 c5 in
  bank_coherent FLASH_CR cr0 tr = true ->
  Z.land (bank_after FLASH_CR cr0 tr) FLASH_CR_MER = 0 /\
  (Z.land cr0 cr_armed_bits = 0 ->
   Z.land (bank_after FLASH_CR cr0 tr) cr_armed_bits = 0).
Proof.
  intros tr H. subst tr. unfold erase_all_trace in *.
  coherent_chain H. bank_after_simpl. split.
  - apply land_not32_same.
  - intros Hclean. follow_chain.
    apply (armed_bits_clear cr0); [exact Hclean|].
    intros i Hi _ Hcr0 Hstrt Hpsize. testbits i.
    rewrite Hcr0, Hstrt, !Hpsize. btauto.
Qed.

Lemma erase_sector_clean sector program_size
    busy1 idle1 c1 c2 c3 c4 c5 c6 busy2 idle2 c7 c8 cr0 :
  let tr := erase_sector_trace sector program_size
              busy1 idle1 c1 c2 c3 c4 c5 c6 busy2 idle2 c7 c8 in
  bank_coherent FLASH_CR cr0 tr = true ->
  Z.land (bank_after FLASH_CR cr0 tr)
    (Z.lor FLASH_CR_SER (shl32 FLASH_CR_SNB_MASK FLASH_CR_SNB_SHIFT)) = 0 /\
  (Z.land cr0 cr_armed_bits = 0 ->
   Z.land (bank_after FLASH_CR cr0 tr) cr_armed_bits = 0).
Proof.
  intros tr H. subst tr. unfold erase_sector_trace in *.
  coherent_chain H. bank_after_simpl. split.
  - rewrite Hread6.
    apply Z.bits_inj'; intros i Hi. rewrite Z.bits_0. testbits i. btauto.
  - intros Hclean. follow_chain.
    apply (armed_bits_clear cr0); [exact Hclean|].
    intros i Hi _ Hcr0 Hstrt Hpsize. testbits i.
    rewrite Hcr0, Hstrt, !Hpsize. btauto.
Qed.

Lemma program_clean w address data
    busy1 idle1 c1 c2 c3 busy2 idle2 c4 cr0 :
  let tr := program_trace w address data
              busy1 idle1 c1 c2 c3 busy2 idle2 c4 in
  bank_coherent FLASH_CR cr0 tr = true ->
  Z.land (bank_after FLASH_CR cr0 tr) FLASH_CR_PG = 0 /\
  (Z.land cr0 cr_armed_bits = 0 ->
   Z.land (bank_after FLASH_CR cr0 tr) cr_armed_bits = 0).
Proof.
  intros tr H. subst tr. unfold program_trace in *.
  coherent_chain H. bank_after_simpl. split.
  - apply land_not32_same.
  - intros Hclean. follow_chain.
    apply (armed_bits_clear cr0); [exact Hclean|].
    intros i Hi _ Hcr0 Hstrt Hpsize. testbits i.
    rewrite Hcr0, !Hpsize. btauto.
Qed.

(** Read-back on some bits only. *)
Lemma bank_coherent_on_app mask r cur a b :
  bank_coherent_on mask r cur (a ++ b)
  = bank_coherent_on mask r cur a
    && bank_coherent_on mask r (bank_after r cur a) b.
Proof.
  revert cur. induction a as [|e a IH]; intros cur; simpl; [reflexivity|].
  destruct e; rewrite ?IH, ?andb_assoc; reflexivity.
Qed.

Lemma bank_coherent_on_reads mask r r' cur l :
  reg_eqb r r' = false -> bank_coherent_on mask r cur (map (rd r') l) = true.
Proof. intros H. induction l; simpl; rewrite ?H; auto. Qed.

Lemma bank_coherent_on_wait_app mask cur busy idle tr :
  bank_coherent_on mask FLASH_CR cur (wait_trace busy idle ++ tr)
  = bank_coherent_on mask FLASH_CR cur tr.
Proof.
  rewrite bank_coherent_on_app, bank_after_wait.
  unfold wait_trace. simpl.
  rewrite bank_coherent_on_app, bank_coherent_on_reads by reflexivity.
  reflexivity.
Qed.

(** A cell that returns every bit as written returns the bits of any mask
    as written. *)
Lemma bank_coherent_on_any_mask mask r tr :
  forall cur,
    bank_coherent r cur tr = true -> bank_coherent_on mask r cur tr = true.
Proof.
  induction tr as [|e tr IH]; intros cur; simpl; [reflexivity|].
  destruct e; try apply IH.
  intros H. apply andb_true_iff in H. destruct H as (Hv & Htr).
  rewrite (IH _ Htr), andb_true_r.
  destruct (reg_eqb r r0); [|reflexivity].
  apply Z.eqb_eq in Hv. subst v. apply Z.eqb_refl.
Qed.

Lemma masked_bit (x y mask i : Z) :
  (Z.land x mask =? Z.land y mask) = true ->
  Z.testbit mask i = true ->
  Z.testbit x i = Z.testbit y i.
Proof.
  intros H Hm. apply Z.eqb_eq in H.
  pose proof (f_equal (fun z => Z.testbit z i) H) as Hbit. cbv beta in Hbit.
  rewrite !Z.land_spec, Hm, !andb_true_r in Hbit. exact Hbit.
Qed.

(** What the layout gives at the position of a bit the driver arms. *)
Lemma armed_bit_facts i :
  0 <= i -> Z.testbit cr_armed_bits i = true ->
  (i <? 32) = true /\
  Z.testbit FLASH_CR_STRT i = false /\
  forall p, Z.testbit (shl32 p FLASH_CR_PROGRAM_SHIFT) i = false.
Proof.
  intros Hi Harmed.
  pose proof (armed_bit_below i Hi Harmed) as Hlow.
  split; [|split].
  - assert (Z.testbit FLASH_CR_PROGRAM_MASK 0 = true) as Hm0.
    { pose proof program_mask_covers as H3.
      pose proof (f_equal (fun z => Z.testbit z 0) H3) as Hb.
      cbv beta in Hb. rewrite Z.land_spec in Hb.
      change (Z.testbit 3 0) with true in Hb. exact Hb. }
    pose proof (field_bit_in_range _ _ program_shift_nonneg
                  program_field_fits 0 ltac:(lia) Hm0) as Hs.
    apply Z.ltb_lt. lia.
  - pose proof (land_zero_bit _ _ i strt_not_armed) as Hstrt.
    rewrite Harmed, andb_true_r in Hstrt. exact Hstrt.
  - intros p. apply shl32_low. lia.
Qed.

Lemma armed_by_is_armed op i :
  Z.testbit (armed_by op) i = true -> Z.testbit cr_armed_bits i = true.
Proof.
  unfold cr_armed_bits. rewrite !Z.lor_spec.
  destruct op; simpl; rewrite ?Z.lor_spec; intros H.
  - rewrite H, ?orb_true_r. reflexivity.
  - apply orb_true_iff in H. destruct H as [H|H]; rewrite H, ?orb_true_r;
      reflexivity.
  - rewrite H. reflexivity.
Qed.

End Cleanliness.

(** Read the chain of equations at bit [i] out of a read-back hypothesis
    on the bits of a mask that has bit [i]. *)
Ltac coherent_on_chain H Hm :=
  repeat rewrite ?bank_coherent_on_wait_app, ?bank_after_wait_app in H;
  cbn [app rmw_and_not rmw_or rd bank_coherent_on bank_after reg_eqb andb]
    in H;
  repeat rewrite ?bank_coherent_on_wait_app, ?bank_after_wait_app in H;
  cbn [app rmw_and_not rmw_or rd bank_coherent_on bank_after reg_eqb andb]
    in H;
  repeat match type of H with
         | (_ && _) = true =>
             let H' := fresh "Hread" in
             apply andb_true_iff in H; destruct H as (H' & H);
             apply (fun e => masked_bit _ _ _ _ e Hm) in H'
         end.

(** Follow the chain from the last read back to the content at entry. *)
Ltac follow_bits i :=
  testbits i;
  repeat match goal with
         | H : Z.testbit (wrap32 _) i = _ |- _ =>
             rewrite H; clear H; testbits i
         end.

Section OwnBits.

Context {hdr : flash_h} {ok : flash_h_ok hdr}.

Lemma erase_all_armed_bit program_size
    busy1 idle1 c1 c2 c3 c4 busy2 idle2 c5 cr0 mask i :
  let tr := erase_all_trace program_size
              busy1 idle1 c1 c2 c3 c4 busy2 idle2 c5 in
  0 <= i -> Z.testbit cr_armed_bits i = true ->
  Z.testbit mask i = true ->
  bank_coherent_on mask FLASH_CR cr0 tr = true ->
  Z.testbit (bank_after FLASH_CR cr0 tr) i
  = Z.testbit cr0 i && negb (Z.testbit FLASH_CR_MER i).
Proof.
  intros tr Hi Harmed Hm H. subst tr. unfold erase_all_trace in *.
  destruct (armed_bit_facts i Hi Harmed) as (Hlt & Hstrt & Hshl).
  coherent_on_chain H Hm. bank_after_simpl. follow_bits i.
  rewrite Hlt, Hstrt, !Hshl. btauto.
Qed.

Lemma erase_sector_armed_bit sector program_size
    busy1 idle1 c1 c2 c3 c4 c5 c6 busy2 idle2 c7 c8 cr0 mask i :
  let tr := erase_sector_trace sector program_size
              busy1 idle1 c1 c2 c3 c4 c5 c6 busy2 idle2 c7 c8 in
  0 <= i -> Z.testbit cr_armed_bits i = true ->
  Z.testbit mask i = true ->
  bank_coherent_on mask FLASH_CR cr0 tr = true ->
  Z.testbit (bank_after FLASH_CR cr0 tr) i
  = Z.testbit cr0 i
    && negb (Z.testbit
               (Z.lor FLASH_CR_SER
                  (shl32 FLASH_CR_SNB_MASK FLASH_CR_SNB_SHIFT)) i).
Proof.
  intros tr Hi Harmed Hm H. subst tr. unfold erase_sector_trace in *.
  destruct (armed_bit_facts i Hi Harmed) as (Hlt & Hstrt & Hshl).
  coherent_on_chain H Hm. bank_after_simpl. follow_bits i.
  rewrite Hlt, Hstrt, !Hshl. btauto.
Qed.

Lemma program_armed_bit w address data
    busy1 idle1 c1 c2 c3 busy2 idle2 c4 cr0 mask i :
  let tr := program_trace w address data
              busy1 idle1 c1 c2 c3 busy2 idle2 c4 in
  0 <= i -> Z.testbit cr_armed_bits i = true ->
  Z.testbit mask i = true ->
  bank_coherent_on mask FLASH_CR cr0 tr = true ->
  Z.testbit (bank_after FLASH_CR cr0 tr) i
  = Z.testbit cr0 i && negb (Z.testbit FLASH_CR_PG i).
Proof.
  intros tr Hi Harmed Hm H. subst tr. unfold program_trace in *.
  destruct (armed_bit_facts i Hi Harmed) as (Hlt & Hstrt & Hshl).
  coherent_on_chain H Hm. bank_after_simpl. follow_bits i.
  rewrite Hlt, !Hshl. btauto.
Qed.

(** The last write of an operation clears its bits, whatever was read. *)
Lemma run_operation_last_cleared op tape u tr rest cr0 :
  run_operation op tape = Done u tr rest ->
  Z.land (bank_after FLASH_CR cr0 tr) (last_cleared op) = 0.
Proof.
  destruct op as [program_size|sector program_size|w address data];
    simpl; intros Hrun.
  - apply flash_erase_all_sectors_Done_inv in Hrun.
    destruct Hrun as (busy1 & idle1 & c1 & c2 & c3 & c4 & busy2 & idle2
                      & c5 & _ & _ & _ & _ & _ & ->).
    unfold erase_all_trace. bank_after_simpl. apply land_not32_same.
  - apply flash_erase_sector_Done_inv in Hrun.
    destruct Hrun as (busy1 & idle1 & c1 & c2 & c3 & c4 & c5 & c6 & busy2
                      & idle2 & c7 & c8 & _ & _ & _ & _ & _ & ->).
    unfold erase_sector_trace. bank_after_simpl. apply land_not32_same.
  - apply program_primitive_Done_inv in Hrun.
    destruct Hrun as (busy1 & idle1 & c1 & c2 & c3 & busy2 & idle2 & c4
                      & _ & _ & _ & _ & _ & ->).
    unfold program_trace. bank_after_simpl. apply land_not32_same.
Qed.

Lemma run_operation_armed_bit op tape u tr rest cr0 mask i :
  run_operation op tape = Done u tr rest ->
  Z.land mask cr_armed_bits = mask ->
  bank_coherent_on mask FLASH_CR cr0 tr = true ->
  Z.testbit mask i = true ->
  Z.testbit (bank_after FLASH_CR cr0 tr) i
  = Z.testbit cr0 i && negb (Z.testbit (armed_by op) i).
Proof.
  intros Hrun Hwithin Hcoh Hm.
  assert (0 <= i) as Hi.
  { destruct (Z.ltb_spec i 0) as [Hneg|Hpos]; [|exact Hpos].
    rewrite Z.testbit_neg_r in Hm by exact Hneg. discriminate. }
  assert (Z.testbit cr_armed_bits i = true) as Harmed.
  { pose proof (f_equal (fun z => Z.testbit z i) Hwithin) as Hbit.
    cbv beta in Hbit. rewrite Z.land_spec, Hm in Hbit. exact Hbit. }
  destruct op as [program_size|sector program_size|w address data];
    simpl in Hrun |- *.
  - apply flash_erase_all_sectors_Done_inv in Hrun.
    destruct Hrun as (busy1 & idle1 & c1 & c2 & c3 & c4 & busy2 & idle2
                      & c5 & _ & _ & _ & _ & _ & ->).
    apply erase_all_armed_bit with (mask := mask); assumption.
  - apply flash_erase_sector_Done_inv in Hrun.
    destruct Hrun as (busy1 & idle1 & c1 & c2 & c3 & c4 & c5 & c6 & busy2
                      & idle2 & c7 & c8 & _ & _ & _ & _ & _ & ->).
    apply erase_sector_armed_bit with (mask := mask); assumption.
  - apply program_primitive_Done_inv in Hrun.
    destruct Hrun as (busy1 & idle1 & c1 & c2 & c3 & busy2 & idle2 & c4
                      & _ & _ & _ & _ & _ & ->).
    apply program_armed_bit with (mask := mask); assumption.
Qed.

Lemma armed_by_within op :
  Z.land (armed_by op) cr_armed_bits = armed_by op.
Proof.
  apply Z.bits_inj'; intros i _. rewrite Z.land_spec.
  destruct (Z.testbit (armed_by op) i) eqn:Hown; [|reflexivity].
  rewrite (armed_by_is_armed op i Hown). reflexivity.
Qed.

(** C2, as the code has it: after any erase or program operation
    returns, the bits its last write clears - mass-erase, the
    sector-number field, program-enable - read as zero whatever the
    control register held before and whatever the reads returned.  For
    the other bits the driver arms (the sector-erase bit of a sector
    erase, and the bits an operation does not arm itself) a read-back
    condition is needed, and only on the bits in question: for any set
    of bits among sector-erase, mass-erase, program-enable and the
    sector-number field that the control register returns as last
    written - the hardware may change every other bit, the start strobe
    among them - each bit of the set reads after the operation as it did
    at entry, but zero where the operation arms it.  So the bits the
    operation arms read as zero for every initial state when they are
    returned as written, and all armed bits read as zero when they are
    returned as written and were zero at entry.  This holds for every
    value the status register returned during the operation, error flags
    included. *)
Theorem operation_leaves_control_register_clean
    (op : operation) (tape : list Z) (tr : trace) (rest : list Z) (cr0 : Z) :
  run_operation op tape = Done tt tr rest ->
  Z.land (bank_after FLASH_CR cr0 tr) (last_cleared op) = 0 /\
  (forall mask,
      Z.land mask cr_armed_bits = mask ->
      bank_coherent_on mask FLASH_CR cr0 tr = true ->
      forall i,
        Z.testbit mask i = true ->
        Z.testbit (bank_after FLASH_CR cr0 tr) i
        = Z.testbit cr0 i && negb (Z.testbit (armed_by op) i)) /\
  (bank_coherent_on (armed_by op) FLASH_CR cr0 tr = true ->
   Z.land (bank_after FLASH_CR cr0 tr) (armed_by op) = 0) /\
  (bank_coherent_on cr_armed_bits FLASH_CR cr0 tr = true ->
   Z.land cr0 cr_armed_bits = 0 ->
   Z.land (bank_after FLASH_CR cr0 tr) cr_armed_bits = 0).
Proof.
  intros Hrun.
  pose proof (fun mask Hwithin Hcoh i =>
                run_operation_armed_bit op tape tt tr rest cr0 mask i
                  Hrun Hwithin Hcoh) as Hbits.
  split; [eapply run_operation_last_cleared; exact Hrun|].
  split; [exact Hbits|]. split.
  - intros Hcoh.
    apply Z.bits_inj'; intros i Hi. rewrite Z.bits_0, Z.land_spec.
    destruct (Z.testbit (armed_by op) i) eqn:Hown;
      [|apply andb_false_r].
    rewrite (Hbits _ (armed_by_within op) Hcoh i Hown), Hown.
    rewrite andb_false_r. reflexivity.
  - intros Hcoh Hclean.
    apply Z.bits_inj'; intros i Hi. rewrite Z.bits_0, Z.land_spec.
    destruct (Z.testbit cr_armed_bits i) eqn:Harmed;
      [|apply andb_false_r].
    pose proof (land_zero_bit _ _ i Hclean) as Hcr0.
    rewrite Harmed, andb_true_r in Hcr0.
    rewrite (Hbits _ (Z.land_diag _) Hcoh i Harmed), Hcr0. reflexivity.
Qed.

End OwnBits.

Section SectorNumber.

Context {hdr : flash_h} {ok : flash_h_ok hdr}.

Lemma erase_sector_trace_cr_writes sector program_size
    busy1 idle1 c1 c2 c3 c4 c5 c6 busy2 idle2 c7 c8 :
  writes_to FLASH_CR
    (erase_sector_trace sector program_size
       busy1 idle1 c1 c2 c3 c4 c5 c6 busy2 idle2 c7 c8)
  = [Z.land (wrap32 c1)
       (not32 (shl32 FLASH_CR_PROGRAM_MASK FLASH_CR_PROGRAM_SHIFT));
     Z.lor (wrap32 c2) (shl32 program_size FLASH_CR_PROGRAM_SHIFT);
     Z.land (wrap32 c3) (not32 (shl32 FLASH_CR_SNB_MASK FLASH_CR_SNB_SHIFT));
     Z.lor (wrap32 c4)
       (shl32 (Z.land sector FLASH_CR_SNB_MASK) FLASH_CR_SNB_SHIFT);
     Z.lor (wrap32 c5) FLASH_CR_SER;
     Z.lor (wrap32 c6) FLASH_CR_STRT;
     Z.land (wrap32 c7) (not32 FLASH_CR_SER);
     Z.land (wrap32 c8) (not32 (shl32 FLASH_CR_SNB_MASK FLASH_CR_SNB_SHIFT))].
Proof.
  unfold erase_sector_trace.
  rewrite !writes_to_app, !writes_to_wait. reflexivity.
Qed.

(** C5, as the code has it: [flash_erase_sector n w] clears the
    sector-number field and then ORs [n & FLASH_CR_SNB_MASK] into it.
    With the control register a cell of a register bank, the field holds
    zero after the clearing write, [n & FLASH_CR_SNB_MASK] after the next
    write and still when the start strobe is written, and zero again after
    the last write.  The sector number is cut to the field's mask and not
    otherwise changed: there is no comparison with the part's number of
    sectors.  The operation returns whenever the hardware goes idle in
    both waits. *)
Theorem flash_erase_sector_writes_masked_sector (sector program_size : Z) :
  (forall tape tr rest,
      flash_erase_sector sector program_size tape = Done tt tr rest ->
      exists busy1 idle1 c1 c2 c3 c4 c5 c6 busy2 idle2 c7 c8,
        tape = erase_sector_tape
                 busy1 idle1 c1 c2 c3 c4 c5 c6 busy2 idle2 c7 c8 rest /\
        Forall still_busy busy1 /\ ~ still_busy idle1 /\
        Forall still_busy busy2 /\ ~ still_busy idle2 /\
        tr = erase_sector_trace sector program_size
               busy1 idle1 c1 c2 c3 c4 c5 c6 busy2 idle2 c7 c8 /\
        forall cr0,
          bank_coherent FLASH_CR cr0 tr = true ->
          exists w1 w2 w3 w4 w5 w6 w7 w8,
            writes_to FLASH_CR tr = [w1; w2; w3; w4; w5; w6; w7; w8] /\
            sector_number_field w3 = 0 /\
            w4 = Z.lor w3
                   (shl32 (Z.land sector FLASH_CR_SNB_MASK)
                      FLASH_CR_SNB_SHIFT) /\
            sector_number_field w4 = Z.land sector FLASH_CR_SNB_MASK /\
            Z.land w6 FLASH_CR_STRT = FLASH_CR_STRT /\
            sector_number_field w6 = Z.land sector FLASH_CR_SNB_MASK /\
            sector_number_field w8 = 0)
  /\
  (forall busy1 idle1 c1 c2 c3 c4 c5 c6 busy2 idle2 c7 c8 rest,
      Forall still_busy busy1 -> ~ still_busy idle1 ->
      Forall still_busy busy2 -> ~ still_busy idle2 ->
      flash_erase_sector sector program_size
        (erase_sector_tape
           busy1 idle1 c1 c2 c3 c4 c5 c6 busy2 idle2 c7 c8 rest)
      = Done tt
          (erase_sector_trace sector program_size
             busy1 idle1 c1 c2 c3 c4 c5 c6 busy2 idle2 c7 c8)
          rest).
Proof.
  pose proof snb_shift_nonneg as Hshift.
  pose proof snb_field_fits as Hfits.
  split.
  - intros tape tr rest Hrun.
    apply flash_erase_sector_Done_inv in Hrun.
    destruct Hrun as (busy1 & idle1 & c1 & c2 & c3 & c4 & c5 & c6 & busy2
                      & idle2 & c7 & c8 & Htape & Hb1 & Hi1 & Hb2 & Hi2
                      & Htr).
    exists busy1, idle1, c1, c2, c3, c4, c5, c6, busy2, idle2, c7, c8.
    repeat (split; [assumption|]).
    intros cr0 H. subst tr. rewrite erase_sector_trace_cr_writes.
    unfold erase_sector_trace in H. coherent_chain H.
    do 8 eexists. split; [reflexivity|].
    unfold sector_number_field.
    split; [apply field_cleared; assumption|].
    split; [rewrite Hread2; reflexivity|].
    split; [rewrite Hread2; apply field_insert; assumption|].
    split; [apply land_lor_same|].
    split; [|apply field_cleared; assumption].
    rewrite Hread4, Hread3, Hread2.
    rewrite field_lor_outside
      by (try apply strt_outside_snb; assumption).
    rewrite field_lor_outside
      by (try apply ser_outside_snb; assumption).
    apply field_insert; assumption.
  - intros. apply flash_erase_sector_Done; assumption.
Qed.

End SectorNumber.

Section StatusFlags.

Context {hdr : flash_h}.

Lemma flash_clear_flag_Done f sr rest :
  flash_clear_flag f (sr :: rest)
  = Done tt (rmw_or FLASH_SR sr (flag_bit f)) rest.
Proof. destruct f; reflexivity. Qed.

(** Under write-one-to-clear, writing back the value read, with one more
    bit set, clears every flag that was pending. *)
Lemma sr_write_clears_all (sr bits : Z) :
  Z.land (sr_write sr (Z.lor sr bits)) FLASH_SR_W1C = 0.
Proof.
  unfold sr_write.
  apply Z.bits_inj'; intros i Hi.
  rewrite Z.bits_0, !Z.land_spec, Z.lnot_spec, Z.land_spec, Z.lor_spec
    by lia.
  btauto.
Qed.

Lemma pending_w1c f sr :
  Z.land sr FLASH_SR_W1C = 0 -> pending f sr = false.
Proof.
  intros H. unfold pending. rewrite negb_false_iff. apply Z.eqb_eq.
  apply Z.bits_inj'; intros i Hi.
  pose proof (land_zero_bit _ _ i H) as Hbit.
  unfold FLASH_SR_W1C in Hbit. rewrite !Z.lor_spec in Hbit.
  rewrite Z.bits_0, Z.land_spec.
  destruct (Z.testbit sr i); [|reflexivity]. simpl in *.
  destruct f; simpl;
    destruct (Z.testbit FLASH_SR_EOP i), (Z.testbit FLASH_SR_PGPERR i),
      (Z.testbit FLASH_SR_PGAERR i), (Z.testbit FLASH_SR_WRPERR i),
      (Z.testbit FLASH_SR_ERSERR i); simpl in Hbit;
    first [discriminate | reflexivity].
Qed.

(** Each flag-clear function reads the status register and writes the
    value read back with its own flag ORed in, so the write carries a one
    for every flag that was pending; under write-one-to-clear that clears
    all five flags, not only the function's own. *)
Lemma flash_clear_flag_writes_back_pending_flags
    (f g : status_flag) (sr : Z) (rest : list Z) :
  flash_clear_flag f (sr :: rest)
  = Done tt
      [EvRead FLASH_SR (wrap32 sr);
       EvWrite FLASH_SR (Z.lor (wrap32 sr) (flag_bit f))]
      rest
  /\ pending g
       (sr_after (wrap32 sr) (emitted (flash_clear_flag f (sr :: rest))))
     = false.
Proof.
  rewrite flash_clear_flag_Done. split; [reflexivity|].
  apply pending_w1c. cbn [emitted rmw_or sr_after rd].
  apply sr_write_clears_all.
Qed.

End StatusFlags.

(** ** The properties on the STM32F7 layout, at concrete inputs *)

Section Stm32f7.

#[local] Existing Instance stm32f7.

(** A 32-bit word [0xDEADBEEF] programmed at [0x08010000], with the
    hardware busy for one poll in each wait and the control register a
    register-bank cell that holds 0 at entry. *)
Lemma program_primitive_cycle_witness :
  flash_h_ok stm32f7 /\
  exists tr,
    program_primitive MMIO32 0x08010000 0xDEADBEEF
      [0x10000; 0; 0; 0; 0x200; 0x10000; 0; 0x201; 7]
    = Done tt tr [7] /\
    stores tr = [(MMIO32, 0x08010000, 0xDEADBEEF)] /\
    exists v,
      bank_at_store FLASH_CR 0 tr = Some v /\
      program_size_field v = 2 /\
      Z.land v FLASH_CR_PG = FLASH_CR_PG.
Proof.
  split; [exact stm32f7_ok|].
  pose (tape := [0x10000; 0; 0; 0; 0x200; 0x10000; 0; 0x201; 7]).
  pose (tr := emitted (program_primitive MMIO32 0x08010000 0xDEADBEEF tape)).
  exists tr. split; [reflexivity|].
  destruct (proj1 (@program_primitive_cycle stm32f7 stm32f7_ok)
              MMIO32 0x08010000 0xDEADBEEF tape tr [7] eq_refl)
    as (busy1 & idle1 & c1 & c2 & c3 & busy2 & idle2 & c4
        & _ & _ & _ & _ & _ & _ & Hstores & Hbank).
  split; [exact Hstores|].
  apply (Hbank 0). reflexivity.
Defined.

(** Sector 3 erased at x32 from a clean control register.  The second
    wait ends on a status word with the write-protect error flag set, and
    the control register then reads back with the start strobe cleared,
    as the hardware does at the end of an operation: the register does
    not return every bit as written, but it does return the bits the
    driver arms. *)
Lemma operation_leaves_control_register_clean_witness :
  flash_h_ok stm32f7 /\
  exists tr,
    run_operation (EraseSector 3 2)
      [0x10000; 0; 0; 0; 0x200; 0x200; 0x218; 0x21a;
       0x10000; 0x10; 0x21a; 0x218]
    = Done tt tr [] /\
    bank_coherent FLASH_CR 0 tr = false /\
    Z.land FLASH_CR_SER cr_armed_bits = FLASH_CR_SER /\
    bank_coherent_on FLASH_CR_SER FLASH_CR 0 tr = true /\
    bank_coherent_on (armed_by (EraseSector 3 2)) FLASH_CR 0 tr = true /\
    bank_coherent_on cr_armed_bits FLASH_CR 0 tr = true /\
    Z.land 0 cr_armed_bits = 0 /\
    Z.land (bank_after FLASH_CR 0 tr) (last_cleared (EraseSector 3 2)) = 0 /\
    Z.testbit (bank_after FLASH_CR 0 tr) 1 = false /\
    Z.land (bank_after FLASH_CR 0 tr) (armed_by (EraseSector 3 2)) = 0 /\
    Z.land (bank_after FLASH_CR 0 tr) cr_armed_bits = 0.
Proof.
  split; [exact stm32f7_ok|].
  pose (tape := [0x10000; 0; 0; 0; 0x200; 0x200; 0x218; 0x21a;
                 0x10000; 0x10; 0x21a; 0x218]).
  pose (tr := emitted (run_operation (EraseSector 3 2) tape)).
  exists tr. do 7 (split; [reflexivity|]).
  destruct (@operation_leaves_control_register_clean stm32f7 stm32f7_ok
              (EraseSector 3 2) tape tr [] 0 eq_refl)
    as (Hlast & Hbits & Hown & Hall).
  split; [exact Hlast|].
  split; [exact (Hbits FLASH_CR_SER eq_refl eq_refl 1 eq_refl)|].
  split; [exact (Hown eq_refl) | exact (Hall eq_refl eq_refl)].
Defined.

(** A mass erase entered with the program-enable bit set in the control
    register returns with the program-enable bit still set: the operation
    disarms the mass-erase bit only. *)
Lemma mass_erase_leaves_program_enable_set :
  flash_erase_all_sectors 2 [0; 1; 1; 0x201; 0x205; 0; 0x10205]
  = Done tt
      [EvDsb; EvRead FLASH_SR 0;
       EvRead FLASH_CR 1; EvWrite FLASH_CR 1;
       EvRead FLASH_CR 1; EvWrite FLASH_CR 0x201;
       EvRead FLASH_CR 0x201; EvWrite FLASH_CR 0x205;
       EvRead FLASH_CR 0x205; EvWrite FLASH_CR 0x10205;
       EvDsb; EvRead FLASH_SR 0;
       EvRead FLASH_CR 0x10205; EvWrite FLASH_CR 0x10201]
      []
  /\ bank_coherent FLASH_CR 1
       (emitted
          (flash_erase_all_sectors 2 [0; 1; 1; 0x201; 0x205; 0; 0x10205]))
     = true
  /\ Z.land
       (bank_after FLASH_CR 1
          (emitted
             (flash_erase_all_sectors 2
                [0; 1; 1; 0x201; 0x205; 0; 0x10205])))
       FLASH_CR_PG
     = 1.
Proof. repeat split. Qed.

(** Sector 25, beyond the 24 sectors of the larger parts, is written to
    the sector-number field as it is. *)
Lemma flash_erase_sector_writes_masked_sector_witness :
  flash_h_ok stm32f7 /\
  exists tr,
    flash_erase_sector 25 2
      [0; 0; 0; 0x200; 0x200; 0x2c8; 0x2ca; 0; 0x102ca; 0x102c8]
    = Done tt tr [] /\
    bank_coherent FLASH_CR 0 tr = true /\
    exists w1 w2 w3 w4 w5 w6 w7 w8,
      writes_to FLASH_CR tr = [w1; w2; w3; w4; w5; w6; w7; w8] /\
      sector_number_field w3 = 0 /\
      sector_number_field w4 = 25 /\
      sector_number_field w6 = 25 /\
      sector_number_field w8 = 0.
Proof.
  split; [exact stm32f7_ok|].
  pose (tape := [0; 0; 0; 0x200; 0x200; 0x2c8; 0x2ca; 0; 0x102ca; 0x102c8]).
  pose (tr := emitted (flash_erase_sector 25 2 tape)).
  exists tr. split; [reflexivity|]. split; [reflexivity|].
  destruct (proj1 (@flash_erase_sector_writes_masked_sector
                     stm32f7 stm32f7_ok 25 2) tape tr [] eq_refl)
    as (busy1 & idle1 & c1 & c2 & c3 & c4 & c5 & c6 & busy2 & idle2
        & c7 & c8 & _ & _ & _ & _ & _ & _ & Hbank).
  destruct (Hbank 0 eq_refl)
    as (w1 & w2 & w3 & w4 & w5 & w6 & w7 & w8
        & Hw & H3 & _ & H4 & _ & H6 & H8).
  exists w1, w2, w3, w4, w5, w6, w7, w8.
  repeat split; assumption.
Defined.

(** Sector number 32 is cut to 0 before it is written: the value ORed
    into the control register is not [32 << FLASH_CR_SNB_SHIFT], the
    field holds 0 when the start strobe is written, and the operation is
    the one for sector 0. *)
Lemma flash_erase_sector_32_is_sector_0 :
  flash_erase_sector 32 2
    [0; 0; 0; 0x200; 0x200; 0x200; 0x202; 0; 0x10202; 0x10200]
  = Done tt
      [EvDsb; EvRead FLASH_SR 0;
       EvRead FLASH_CR 0; EvWrite FLASH_CR 0;
       EvRead FLASH_CR 0; EvWrite FLASH_CR 0x200;
       EvRead FLASH_CR 0x200; EvWrite FLASH_CR 0x200;
       EvRead FLASH_CR 0x200; EvWrite FLASH_CR 0x200;
       EvRead FLASH_CR 0x200; EvWrite FLASH_CR 0x202;
       EvRead FLASH_CR 0x202; EvWrite FLASH_CR 0x10202;
       EvDsb; EvRead FLASH_SR 0;
       EvRead FLASH_CR 0x10202; EvWrite FLASH_CR 0x10200;
       EvRead FLASH_CR 0x10200; EvWrite FLASH_CR 0x10200]
      []
  /\ bank_coherent FLASH_CR 0
       (emitted
          (flash_erase_sector 32 2
             [0; 0; 0; 0x200; 0x200; 0x200; 0x202; 0; 0x10202; 0x10200]))
     = true
  /\ sector_number_field 0x200 = 0
  /\ sector_number_field 0x10202 = 0
  /\ Z.shiftl 32 FLASH_CR_SNB_SHIFT = 0x100
  /\ flash_erase_sector 32 2
       [0; 0; 0; 0x200; 0x200; 0x200; 0x202; 0; 0x10202; 0x10200]
     = flash_erase_sector 0 2
         [0; 0; 0; 0x200; 0x200; 0x200; 0x202; 0; 0x10202; 0x10200].
Proof. repeat split. Qed.

(** Latency 7 on an access-control register that holds prefetch and ART
    enable and latches the new value at the second read-back. *)
Lemma flash_set_ws_rmw_then_readback_witness :
  Z.land 7 (Z.lnot FLASH_ACR_LATENCY_MASK) = 0 /\
  flash_set_ws 7 [0x300; 0x300; 0x307; 9]
  = Done tt
      [EvRead FLASH_ACR 0x300; EvWrite FLASH_ACR 0x307;
       EvRead FLASH_ACR 0x300; EvRead FLASH_ACR 0x307]
      [9] /\
  latency_field (set_ws_written 7 0x300) = 7 /\
  Z.testbit (set_ws_written 7 0x300) 8 = Z.testbit (wrap32 0x300) 8 /\
  exists r polls last,
    [0x300; 0x300; 0x307; 9] = r :: polls ++ last :: [9] /\
    Forall (fun p => latency_field (wrap32 p) <> 7) polls /\
    latency_field (wrap32 last) = 7.
Proof.
  split; [reflexivity|]. split; [reflexivity|].
  destruct (@flash_set_ws_rmw_then_readback stm32f7 7)
    as (_ & Hframe & Hback & _).
  destruct (Hframe 0x300 eq_refl) as (Hlat & Hbits).
  split; [exact Hlat|]. split; [apply Hbits; reflexivity|].
  assert (Hrun : flash_set_ws 7 [0x300; 0x300; 0x307; 9]
                 = Done tt
                     [EvRead FLASH_ACR 0x300; EvWrite FLASH_ACR 0x307;
                      EvRead FLASH_ACR 0x300; EvRead FLASH_ACR 0x307]
                     [9]) by reflexivity.
  destruct (Hback _ _ _ Hrun)
    as (_ & r & polls & last & Htape & Hpolls & Hlast & _).
  exists r, polls, last. repeat split; assumption.
Defined.

(** [flash_set_ws 0x100] on an access-control register that reads 0
    writes [0x100], which sets bit 8 (the prefetch enable), a bit outside
    the latency field; the call is then still polling. *)
Lemma flash_set_ws_sets_bit_outside_latency_field :
  flash_set_ws 0x100 [0; 0x100]
  = Starved
      [EvRead FLASH_ACR 0; EvWrite FLASH_ACR 0x100; EvRead FLASH_ACR 0x100]
  /\ Z.testbit FLASH_ACR_LATENCY_MASK 8 = false
  /\ Z.testbit 0 8 = false
  /\ Z.testbit 0x100 8 = true.
Proof. repeat split. Qed.



(** The option bytes [0x0FFFAAFF] written with the option-lock bit set at
    entry: the unlock keys are written and the low two bits are masked. *)
Lemma flash_program_option_bytes_sequence_witness :
  flash_program_option_bytes 0x0FFFAAFF [0; 1; 1; 0x0FFFAAFC; 0; 5]
  = Done tt
      [EvDsb; EvRead FLASH_SR 0;
       EvRead FLASH_OPTCR 1;
       EvRead FLASH_OPTCR 1; EvWrite FLASH_OPTCR 1;
       EvWrite FLASH_OPTKEYR 0x08192A3B; EvWrite FLASH_OPTKEYR 0x4C5D6E7F;
       EvWrite FLASH_OPTCR 0x0FFFAAFC;
       EvRead FLASH_OPTCR 0x0FFFAAFC; EvWrite FLASH_OPTCR 0x0FFFAAFE;
       EvDsb; EvRead FLASH_SR 0]
      [5]
  /\ exists o1,
       option_locked o1 = true /\
       writes_to FLASH_OPTKEYR
         (emitted
            (flash_program_option_bytes 0x0FFFAAFF
               [0; 1; 1; 0x0FFFAAFC; 0; 5]))
       = (if option_locked o1 then [0x08192A3B; 0x4C5D6E7F] else []).
Proof.
  split; [reflexivity|].
  pose (tape := [0; 1; 1; 0x0FFFAAFC; 0; 5]).
  pose (tr := emitted (flash_program_option_bytes 0x0FFFAAFF tape)).
  destruct (proj1 (@flash_program_option_bytes_sequence stm32f7 0x0FFFAAFF)
              tape tr [5] eq_refl)
    as (busy1 & idle1 & o1 & o2 & o3 & busy2 & idle2
        & _ & _ & _ & _ & _ & _ & Hkeys & _).
  exists o1. split; [|exact Hkeys].
  simpl in Hkeys. destruct (option_locked o1); [reflexivity|discriminate].
Defined.

(** C4, at the failing input: [flash_clear_eop_flag] called with the
    end-of-operation and programming-parallelism-error flags pending
    ([FLASH_SR = 0x41]) writes [0x41], a one to both flags, and the
    parallelism error, pending before, is cleared as well. *)
Theorem flash_clear_eop_flag_clears_pgperr :
  flash_clear_eop_flag [0x41]
  = Done tt [EvRead FLASH_SR 0x41; EvWrite FLASH_SR 0x41] []
  /\ Z.land 0x41 FLASH_SR_PGPERR = FLASH_SR_PGPERR
  /\ pending PGPERR 0x41 = true
  /\ pending PGPERR (sr_after 0x41 (emitted (flash_clear_eop_flag [0x41])))
     = false.
Proof. repeat split. Qed.

End Stm32f7.

(** ** Footprints: what the driver never touches *)

Section Footprint.

Context {hdr : flash_h}.

Lemma emitted_bind {A B : Type} (m : M A) (k : A -> M B) tape :
  emitted (bind m k tape)
  = match m tape with
    | Done a tr rest => tr ++ emitted (k a rest)
    | Starved tr => tr
    | Fault tr => tr
    end.
Proof.
  unfold bind. destruct (m tape); [apply emitted_prepend | |]; reflexivity.
Qed.

Lemma footprint_bind {A B : Type} rs st (m : M A) (k : A -> M B) :
  footprint rs st m -> (forall a, footprint rs st (k a)) ->
  footprint rs st (bind m k).
Proof.
  intros Hm Hk tape. rewrite emitted_bind. specialize (Hm tape).
  destruct (m tape) as [a tr rest|tr|tr]; simpl in Hm; try exact Hm.
  rewrite forallb_app, Hm. apply Hk.
Qed.

Lemma footprint_ret {A : Type} rs st (a : A) : footprint rs st (ret a).
Proof. intros tape. reflexivity. Qed.

Lemma footprint_read rs st r :
  existsb (reg_eqb r) rs = true -> footprint rs st (read r).
Proof.
  intros Hr [|raw tape]; simpl; [reflexivity|]. rewrite Hr. reflexivity.
Qed.

Lemma footprint_write rs st r v :
  existsb (reg_eqb r) rs = true -> footprint rs st (write r v).
Proof. intros Hr tape. simpl. rewrite Hr. reflexivity. Qed.

Lemma footprint_store rs w a d : footprint rs true (store w a d).
Proof. intros tape. reflexivity. Qed.

Lemma footprint_dsb rs st : footprint rs st dsb.
Proof. intros tape. reflexivity. Qed.

Lemma footprint_load rs st data i : footprint rs st (load data i).
Proof. intros tape. unfold load. destruct (nth_error data i); reflexivity. Qed.

Lemma footprint_spin rs st r again :
  existsb (reg_eqb r) rs = true -> footprint rs st (spin r again).
Proof.
  intros Hr tape. induction tape as [|raw tape IH]; simpl; [reflexivity|].
  destruct (again (wrap32 raw)).
  - rewrite emitted_prepend. simpl. rewrite Hr. exact IH.
  - simpl. rewrite Hr. reflexivity.
Qed.

Lemma footprint_if {A : Type} rs st (b : bool) (m1 m2 : M A) :
  footprint rs st m1 -> footprint rs st m2 ->
  footprint rs st (if b then m1 else m2).
Proof. destruct b; auto. Qed.

End Footprint.

(** Decompose a straight-line body into its accesses. *)
Ltac footprint_steps :=
  repeat first
    [ apply footprint_bind; [|intros ?]
    | apply footprint_if
    | apply footprint_ret
    | apply footprint_dsb
    | apply footprint_store
    | apply footprint_load
    | apply footprint_read; reflexivity
    | apply footprint_write; reflexivity
    | apply footprint_spin; reflexivity ].

Section FootprintOfDriver.

Context {hdr : flash_h}.

Lemma footprint_program_primitive w address data :
  footprint [FLASH_SR; FLASH_CR] true (program_primitive w address data).
Proof.
  rewrite program_primitive_unfold.
  unfold flash_wait_for_last_operation, flash_pipeline_stall,
    flash_set_program_size, or_assign, and_not_assign.
  footprint_steps.
Qed.

Lemma footprint_flash_program_from address data todo :
  forall i,
    footprint [FLASH_SR; FLASH_CR] true
      (flash_program_from address data i todo).
Proof.
  induction todo as [|todo IH]; intros i; simpl.
  - apply footprint_ret.
  - apply footprint_bind; [apply footprint_load|intros d].
    apply footprint_bind; [|intros _; apply IH].
    apply (footprint_program_primitive MMIO8).
Qed.

(** X1: whatever the hardware answers and however each call ends - returned,
    still polling, or out of the caller's buffer - the driver's functions
    stay within these registers: the wait and the flag clears touch only
    the status register; the wait-state, ART and prefetch functions only
    the access-control register; the program/erase lock functions only the
    control and key registers; the option-byte lock functions only the
    option-control and option-key registers; the erases only the status
    and control registers; the program functions these two and memory;
    the option-byte write only the status, option-control and option-key
    registers.  Only the program functions issue memory-mapped stores, and
    no erase or program function writes a key register. *)
Theorem driver_footprints :
  footprint [FLASH_SR] false flash_wait_for_last_operation
  /\ footprint [FLASH_SR] false flash_clear_status_flags
  /\ (forall f, footprint [FLASH_SR] false (flash_clear_flag f))
  /\ (forall ws, footprint [FLASH_ACR] false (flash_set_ws ws))
  /\ footprint [FLASH_ACR] false flash_art_enable
  /\ footprint [FLASH_ACR] false flash_art_reset
  /\ footprint [FLASH_ACR] false flash_prefetch_enable
  /\ footprint [FLASH_ACR] false flash_prefetch_disable
  /\ footprint [FLASH_CR; FLASH_KEYR] false flash_unlock
  /\ footprint [FLASH_CR] false flash_lock
  /\ footprint [FLASH_OPTCR; FLASH_OPTKEYR] false flash_unlock_option_bytes
  /\ footprint [FLASH_OPTCR] false flash_lock_option_bytes
  /\ (forall program_size,
         footprint [FLASH_SR; FLASH_CR] false
           (flash_erase_all_sectors program_size))
  /\ (forall sector program_size,
         footprint [FLASH_SR; FLASH_CR] false
           (flash_erase_sector sector program_size))
  /\ (forall w address data,
         footprint [FLASH_SR; FLASH_CR] true
           (program_primitive w address data))
  /\ (forall address data len,
         footprint [FLASH_SR; FLASH_CR] true
           (flash_program address data len))
  /\ (forall data,
         footprint [FLASH_SR; FLASH_OPTCR; FLASH_OPTKEYR] false
           (flash_program_option_bytes data)).
Proof.
  repeat match goal with |- _ /\ _ => split end; intros;
    try apply footprint_program_primitive;
    try apply footprint_flash_program_from;
    try (destruct f);
    unfold flash_clear_status_flags, flash_clear_flag,
      flash_clear_erserr_flag, flash_clear_pgaerr_flag,
      flash_clear_wrperr_flag, flash_clear_pgperr_flag,
      flash_clear_eop_flag, flash_set_ws, flash_art_enable,
      flash_art_reset, flash_prefetch_enable, flash_prefetch_disable,
      flash_unlock, flash_lock, flash_lock_option_bytes,
      flash_erase_all_sectors, flash_erase_sector,
      flash_program_option_bytes, flash_unlock_option_bytes,
      flash_wait_for_last_operation, flash_pipeline_stall,
      flash_set_program_size, or_assign, and_not_assign;
    footprint_steps.
Qed.

End FootprintOfDriver.

(** ** The program-size field for any requested parallelism *)

Section ProgramSize.

Context {hdr : flash_h} {ok : flash_h_ok hdr}.

(** Clearing a field and OR-ing an unmasked value, shifted, leaves the
    value cut to the mask in the field. *)
Lemma field_insert_unmasked (mask shift c n : Z) :
  0 <= shift -> 0 <= Z.shiftl mask shift < 2 ^ 32 ->
  Z.land
    (Z.shiftr
       (Z.lor (Z.land c (not32 (shl32 mask shift))) (shl32 n shift)) shift)
    mask
  = Z.land n mask.
Proof.
  intros Hs Hfit. unfold not32, shl32, wrap32.
  pose proof (field_bit_in_range mask shift Hs Hfit) as Hrange.
  apply Z.bits_inj'; intros i Hi. specialize (Hrange i Hi).
  rewrite !Z.land_spec, Z.shiftr_spec, Z.lor_spec, Z.land_spec by lia.
  rewrite !Z.testbit_mod_pow2, Z.lnot_spec, Z.testbit_mod_pow2 by lia.
  rewrite !Z.shiftl_spec by lia.
  replace (i + shift - shift) with i by lia.
  destruct (Z.testbit mask i).
  - destruct (Z.ltb_spec (i + shift) 32); [|specialize (Hrange eq_refl); lia].
    simpl. rewrite !andb_false_r, !andb_true_r. reflexivity.
  - rewrite !andb_false_r. reflexivity.
Qed.

Lemma wrap32_bit_in_range raw i :
  Z.testbit (wrap32 raw) i = true -> (i <? 32) = true.
Proof.
  unfold wrap32. destruct (Z.ltb_spec i 0) as [Hneg|Hpos].
  - rewrite Z.testbit_neg_r by exact Hneg. discriminate.
  - rewrite Z.testbit_mod_pow2 by lia.
    destruct (i <? 32); [reflexivity|discriminate].
Qed.

(** Outside the field, the written value has the bits read and the bits
    of the shifted value. *)
Lemma set_field_outside (mask shift raw n i : Z) :
  0 <= i ->
  Z.testbit (shl32 mask shift) i = false ->
  Z.testbit
    (Z.lor (Z.land (wrap32 raw) (not32 (shl32 mask shift))) (shl32 n shift))
    i
  = Z.testbit (wrap32 raw) i || Z.testbit (shl32 n shift) i.
Proof.
  intros Hi Hout.
  rewrite Z.lor_spec, Z.land_spec, not32_spec, Hout by exact Hi.
  destruct (Z.testbit (wrap32 raw) i) eqn:Hraw; [|reflexivity].
  rewrite (wrap32_bit_in_range _ _ Hraw). reflexivity.
Qed.

Lemma shl32_within_mask (mask shift n i : Z) :
  0 <= i -> Z.land n mask = n ->
  Z.testbit (shl32 mask shift) i = false ->
  Z.testbit (shl32 n shift) i = false.
Proof.
  intros Hi Hn Hout. rewrite <- Hn, shl32_land by exact Hi.
  rewrite Hout. apply andb_false_r.
Qed.

(** X3: [flash_set_program_size psize], with the control register a cell of
    a register bank: two read-modify-writes; afterwards the program-size
    field holds [psize] cut to the field's mask, for every [psize] and
    every prior content; outside the field every bit is the prior bit
    ORed with the bit of [psize << FLASH_CR_PROGRAM_SHIFT], so bits of
    [psize] above the mask are set in the register above the field, and
    with [psize] within the mask every bit outside the field is as it
    was. *)
Theorem flash_set_program_size_field
    (psize c1 c2 : Z) (rest : list Z) (cr0 : Z) :
  let tr :=
    rmw_and_not FLASH_CR c1
      (shl32 FLASH_CR_PROGRAM_MASK FLASH_CR_PROGRAM_SHIFT)
    ++ rmw_or FLASH_CR c2 (shl32 psize FLASH_CR_PROGRAM_SHIFT) in
  flash_set_program_size psize (c1 :: c2 :: rest) = Done tt tr rest /\
  (bank_coherent FLASH_CR cr0 tr = true ->
   program_size_field (bank_after FLASH_CR cr0 tr)
   = Z.land psize FLASH_CR_PROGRAM_MASK /\
   (forall i,
       0 <= i ->
       Z.testbit (shl32 FLASH_CR_PROGRAM_MASK FLASH_CR_PROGRAM_SHIFT) i
       = false ->
       Z.testbit (bank_after FLASH_CR cr0 tr) i
       = Z.testbit cr0 i
         || Z.testbit (shl32 psize FLASH_CR_PROGRAM_SHIFT) i) /\
   (Z.land psize FLASH_CR_PROGRAM_MASK = psize ->
    forall i,
      0 <= i ->
      Z.testbit (shl32 FLASH_CR_PROGRAM_MASK FLASH_CR_PROGRAM_SHIFT) i
      = false ->
      Z.testbit (bank_after FLASH_CR cr0 tr) i = Z.testbit cr0 i)).
Proof.
  intros tr. subst tr. split; [reflexivity|].
  cbn [app rmw_and_not rmw_or rd bank_coherent bank_after reg_eqb andb].
  intros H.
  apply andb_true_iff in H. destruct H as (H1 & H).
  apply andb_true_iff in H. destruct H as (H2 & _).
  apply Z.eqb_eq in H1, H2. rewrite H2. subst cr0.
  split; [|split].
  - apply field_insert_unmasked;
      auto using program_shift_nonneg, program_field_fits.
  - intros i Hi Hout. apply set_field_outside; assumption.
  - intros Hin i Hi Hout.
    rewrite set_field_outside by assumption.
    rewrite (shl32_within_mask _ _ _ _ Hi Hin Hout). apply orb_false_r.
Qed.

End ProgramSize.

(** ** Mass erase *)

Section MassErase.

Context {hdr : flash_h} {ok : flash_h_ok hdr}.

Lemma mer_outside_program_field :
  Z.land FLASH_CR_MER (shl32 FLASH_CR_PROGRAM_MASK FLASH_CR_PROGRAM_SHIFT)
  = 0.
Proof.
  pose proof program_shift_nonneg as Hs.
  unfold shl32, wrap32.
  apply Z.bits_inj'; intros i Hi.
  rewrite Z.bits_0, Z.land_spec, Z.testbit_mod_pow2 by lia.
  destruct (Z.testbit FLASH_CR_MER i) eqn:Hmer; [|reflexivity].
  assert (Z.testbit cr_armed_bits i = true) as Harmed.
  { unfold cr_armed_bits. rewrite !Z.lor_spec, Hmer.
    rewrite orb_true_r. reflexivity. }
  apply armed_bit_below in Harmed; [|exact Hi].
  rewrite Z.shiftl_spec_low by lia. rewrite andb_false_r. reflexivity.
Qed.

Lemma erase_all_trace_cr_writes program_size
    busy1 idle1 c1 c2 c3 c4 busy2 idle2 c5 :
  writes_to FLASH_CR
    (erase_all_trace program_size busy1 idle1 c1 c2 c3 c4 busy2 idle2 c5)
  = [Z.land (wrap32 c1)
       (not32 (shl32 FLASH_CR_PROGRAM_MASK FLASH_CR_PROGRAM_SHIFT));
     Z.lor (wrap32 c2) (shl32 program_size FLASH_CR_PROGRAM_SHIFT);
     Z.lor (wrap32 c3) FLASH_CR_MER;
     Z.lor (wrap32 c4) FLASH_CR_STRT;
     Z.land (wrap32 c5) (not32 FLASH_CR_MER)].
Proof.
  unfold erase_all_trace.
  rewrite !writes_to_app, !writes_to_wait. reflexivity.
Qed.

Lemma land_lor_lor_same (x a b : Z) :
  Z.land (Z.lor (Z.lor x a) b) a = a.
Proof.
  apply Z.bits_inj'; intros i Hi. rewrite Z.land_spec, !Z.lor_spec.
  btauto.
Qed.

(** X2: [flash_erase_all_sectors]: a returning run is wait idle; the
    program-size field cleared and the requested size ORed in; the
    mass-erase bit set; the start strobe set; wait idle; the mass-erase
    bit cleared - five control-register writes and no store.  With the
    control register a cell of a register bank, the strobe is written with
    the mass-erase bit set and, when the strobe bit lies outside the
    program-size field, with the field holding the requested size cut to
    its mask; the last write has the mass-erase bit clear.  The operation
    returns whenever the hardware goes idle in both waits. *)
Theorem flash_erase_all_sectors_sequence (program_size : Z) :
  (forall tape tr rest,
      flash_erase_all_sectors program_size tape = Done tt tr rest ->
      exists busy1 idle1 c1 c2 c3 c4 busy2 idle2 c5,
        tape = erase_all_tape busy1 idle1 c1 c2 c3 c4 busy2 idle2 c5 rest /\
        Forall still_busy busy1 /\ ~ still_busy idle1 /\
        Forall still_busy busy2 /\ ~ still_busy idle2 /\
        tr = erase_all_trace program_size
               busy1 idle1 c1 c2 c3 c4 busy2 idle2 c5 /\
        stores tr = [] /\
        forall cr0,
          bank_coherent FLASH_CR cr0 tr = true ->
          exists w1 w2 w3 w4 w5,
            writes_to FLASH_CR tr = [w1; w2; w3; w4; w5] /\
            Z.land w4 FLASH_CR_MER = FLASH_CR_MER /\
            Z.land w4 FLASH_CR_STRT = FLASH_CR_STRT /\
            (Z.land FLASH_CR_STRT
               (shl32 FLASH_CR_PROGRAM_MASK FLASH_CR_PROGRAM_SHIFT) = 0 ->
             program_size_field w4
             = Z.land program_size FLASH_CR_PROGRAM_MASK) /\
            Z.land w5 FLASH_CR_MER = 0)
  /\
  (forall busy1 idle1 c1 c2 c3 c4 busy2 idle2 c5 rest,
      Forall still_busy busy1 -> ~ still_busy idle1 ->
      Forall still_busy busy2 -> ~ still_busy idle2 ->
      flash_erase_all_sectors program_size
        (erase_all_tape busy1 idle1 c1 c2 c3 c4 busy2 idle2 c5 rest)
      = Done tt
          (erase_all_trace program_size
             busy1 idle1 c1 c2 c3 c4 busy2 idle2 c5)
          rest).
Proof.
  pose proof program_shift_nonneg as Hshift.
  pose proof program_field_fits as Hfits.
  split.
  - intros tape tr rest Hrun.
    apply flash_erase_all_sectors_Done_inv in Hrun.
    destruct Hrun as (busy1 & idle1 & c1 & c2 & c3 & c4 & busy2 & idle2
                      & c5 & Htape & Hb1 & Hi1 & Hb2 & Hi2 & Htr).
    exists busy1, idle1, c1, c2, c3, c4, busy2, idle2, c5.
    repeat (split; [assumption|]).
    subst tr. split.
    { unfold erase_all_trace. rewrite !stores_app, !stores_wait.
      reflexivity. }
    intros cr0 H. rewrite erase_all_trace_cr_writes.
    unfold erase_all_trace in H. coherent_chain H.
    do 5 eexists. split; [reflexivity|].
    split; [rewrite Hread2; apply land_lor_lor_same|].
    split; [apply land_lor_same|].
    split; [|apply land_not32_same].
    intros Hstrt. unfold program_size_field.
    rewrite Hread2, Hread1, Hread0.
    rewrite field_lor_outside by assumption.
    rewrite field_lor_outside
      by (try apply mer_outside_program_field; assumption).
    apply field_insert_unmasked; assumption.
  - intros. apply flash_erase_all_sectors_Done; assumption.
Qed.

End MassErase.

(** ** Clearing all status flags *)

Section ClearAll.

Context {hdr : flash_h}.

Lemma sr_five_writes_clear_all (sr r1 r2 r3 r4 r5 : Z) :
  Z.land
    (sr_write
       (sr_write
          (sr_write
             (sr_write
                (sr_write sr (Z.lor r1 FLASH_SR_ERSERR))
                (Z.lor r2 FLASH_SR_PGAERR))
             (Z.lor r3 FLASH_SR_WRPERR))
          (Z.lor r4 FLASH_SR_PGPERR))
       (Z.lor r5 FLASH_SR_EOP))
    FLASH_SR_W1C
  = 0.
Proof.
  unfold sr_write, FLASH_SR_W1C.
  apply Z.bits_inj'; intros i Hi. rewrite Z.bits_0.
  repeat rewrite ?Z.land_spec, ?Z.lor_spec, ?Z.lnot_spec by exact Hi.
  btauto.
Qed.

(** X4: [flash_clear_status_flags] does five read-modify-writes of the
    status register, for the erase-sequence, alignment, write-protect and
    parallelism errors and the end of operation, in this order; under
    write-one-to-clear none of the five flags is pending afterwards,
    whatever the register held and whatever the five reads returned. *)
Theorem flash_clear_status_flags_clears_all
    (r1 r2 r3 r4 r5 : Z) (rest : list Z) (sr : Z) (f : status_flag) :
  flash_clear_status_flags (r1 :: r2 :: r3 :: r4 :: r5 :: rest)
  = Done tt
      (rmw_or FLASH_SR r1 FLASH_SR_ERSERR
       ++ rmw_or FLASH_SR r2 FLASH_SR_PGAERR
       ++ rmw_or FLASH_SR r3 FLASH_SR_WRPERR
       ++ rmw_or FLASH_SR r4 FLASH_SR_PGPERR
       ++ rmw_or FLASH_SR r5 FLASH_SR_EOP)
      rest
  /\ pending f
       (sr_after sr
          (emitted
             (flash_clear_status_flags
                (r1 :: r2 :: r3 :: r4 :: r5 :: rest))))
     = false.
Proof.
  split; [reflexivity|].
  apply pending_w1c.
  change (emitted
            (flash_clear_status_flags (r1 :: r2 :: r3 :: r4 :: r5 :: rest)))
    with (rmw_or FLASH_SR r1 FLASH_SR_ERSERR
          ++ rmw_or FLASH_SR r2 FLASH_SR_PGAERR
          ++ rmw_or FLASH_SR r3 FLASH_SR_WRPERR
          ++ rmw_or FLASH_SR r4 FLASH_SR_PGPERR
          ++ rmw_or FLASH_SR r5 FLASH_SR_EOP).
  cbn [app rmw_or rd sr_after].
  apply sr_five_writes_clear_all.
Qed.

End ClearAll.

(** ** The access-control register: ART, prefetch and wait states *)

Section AccessControl.

Context {hdr : flash_h}.

Lemma latency_lor_outside v bits :
  Z.land bits FLASH_ACR_LATENCY_MASK = 0 ->
  latency_field (Z.lor v bits) = latency_field v.
Proof.
  intros H. unfold latency_field.
  rewrite Z.land_lor_distr_l, H. apply Z.lor_0_r.
Qed.

Lemma latency_land_not32_outside raw bits :
  Z.land bits FLASH_ACR_LATENCY_MASK = 0 ->
  latency_field (Z.land (wrap32 raw) (not32 bits))
  = latency_field (wrap32 raw).
Proof.
  intros H. unfold latency_field.
  apply Z.bits_inj'; intros i Hi.
  pose proof (land_zero_bit _ _ i H) as Hbit.
  rewrite !Z.land_spec, not32_spec by exact Hi.
  destruct (Z.testbit (wrap32 raw) i) eqn:Hraw; [|reflexivity].
  rewrite (wrap32_bit_in_range _ _ Hraw).
  destruct (Z.testbit FLASH_ACR_LATENCY_MASK i);
    [|rewrite !andb_false_r; reflexivity].
  rewrite andb_true_r in Hbit. rewrite Hbit. reflexivity.
Qed.

(** X5: the ART and prefetch functions never change the wait states: each is
    one read-modify-write of the access-control register, and, with its
    bit outside the latency mask, the value written has the latency field
    as it was read. *)
Theorem art_and_prefetch_keep_latency (acr : Z) (rest : list Z) :
  Z.land FLASH_ACR_ARTEN FLASH_ACR_LATENCY_MASK = 0 ->
  Z.land FLASH_ACR_ARTRST FLASH_ACR_LATENCY_MASK = 0 ->
  Z.land FLASH_ACR_PRFTEN FLASH_ACR_LATENCY_MASK = 0 ->
  (exists w,
      flash_art_enable (acr :: rest)
      = Done tt [rd FLASH_ACR acr; EvWrite FLASH_ACR w] rest /\
      latency_field w = latency_field (wrap32 acr))
  /\ (exists w,
         flash_art_reset (acr :: rest)
         = Done tt [rd FLASH_ACR acr; EvWrite FLASH_ACR w] rest /\
         latency_field w = latency_field (wrap32 acr))
  /\ (exists w,
         flash_prefetch_enable (acr :: rest)
         = Done tt [rd FLASH_ACR acr; EvWrite FLASH_ACR w] rest /\
         latency_field w = latency_field (wrap32 acr))
  /\ (exists w,
         flash_prefetch_disable (acr :: rest)
         = Done tt [rd FLASH_ACR acr; EvWrite FLASH_ACR w] rest /\
         latency_field w = latency_field (wrap32 acr)).
Proof.
  intros Harten Hartrst Hprften.
  repeat split; eexists; (split; [reflexivity|]);
    first [ apply latency_lor_outside; assumption
          | apply latency_land_not32_outside; assumption ].
Qed.

Lemma lor_land_not32_same raw bits :
  Z.land (Z.lor (wrap32 raw) bits) (not32 bits)
  = Z.land (wrap32 raw) (not32 bits).
Proof.
  apply Z.bits_inj'; intros i Hi.
  rewrite !Z.land_spec, Z.lor_spec, not32_spec by exact Hi. btauto.
Qed.

Lemma land_not32_lor_same raw bits :
  Z.lor (Z.land (wrap32 raw) (not32 bits)) bits = Z.lor (wrap32 raw) bits.
Proof.
  apply Z.bits_inj'; intros i Hi.
  rewrite !Z.lor_spec, Z.land_spec, not32_spec by exact Hi.
  destruct (Z.testbit (wrap32 raw) i) eqn:Hraw; [|reflexivity].
  rewrite (wrap32_bit_in_range _ _ Hraw). btauto.
Qed.

(** X6: prefetch enable and disable compose as a switch: with the
    access-control register a cell of a register bank, enable then
    disable leaves the register as it was with the prefetch bit clear,
    disable then enable and enable twice leave it as it was with the
    prefetch bit set; no other bit changes. *)
Theorem prefetch_enable_disable_compose (c1 c2 : Z) (rest : list Z) :
  (flash_prefetch_enable ;; flash_prefetch_disable) (c1 :: c2 :: rest)
  = Done tt
      (rmw_or FLASH_ACR c1 FLASH_ACR_PRFTEN
       ++ rmw_and_not FLASH_ACR c2 FLASH_ACR_PRFTEN) rest
  /\ (flash_prefetch_disable ;; flash_prefetch_enable) (c1 :: c2 :: rest)
     = Done tt
         (rmw_and_not FLASH_ACR c1 FLASH_ACR_PRFTEN
          ++ rmw_or FLASH_ACR c2 FLASH_ACR_PRFTEN) rest
  /\ (flash_prefetch_enable ;; flash_prefetch_enable) (c1 :: c2 :: rest)
     = Done tt
         (rmw_or FLASH_ACR c1 FLASH_ACR_PRFTEN
          ++ rmw_or FLASH_ACR c2 FLASH_ACR_PRFTEN) rest
  /\ forall acr0,
       (bank_coherent FLASH_ACR acr0
          (rmw_or FLASH_ACR c1 FLASH_ACR_PRFTEN
           ++ rmw_and_not FLASH_ACR c2 FLASH_ACR_PRFTEN) = true ->
        bank_after FLASH_ACR acr0
          (rmw_or FLASH_ACR c1 FLASH_ACR_PRFTEN
           ++ rmw_and_not FLASH_ACR c2 FLASH_ACR_PRFTEN)
        = Z.land acr0 (not32 FLASH_ACR_PRFTEN))
       /\ (bank_coherent FLASH_ACR acr0
             (rmw_and_not FLASH_ACR c1 FLASH_ACR_PRFTEN
              ++ rmw_or FLASH_ACR c2 FLASH_ACR_PRFTEN) = true ->
           bank_after FLASH_ACR acr0
             (rmw_and_not FLASH_ACR c1 FLASH_ACR_PRFTEN
              ++ rmw_or FLASH_ACR c2 FLASH_ACR_PRFTEN)
           = Z.lor acr0 FLASH_ACR_PRFTEN)
       /\ (bank_coherent FLASH_ACR acr0
             (rmw_or FLASH_ACR c1 FLASH_ACR_PRFTEN
              ++ rmw_or FLASH_ACR c2 FLASH_ACR_PRFTEN) = true ->
           bank_after FLASH_ACR acr0
             (rmw_or FLASH_ACR c1 FLASH_ACR_PRFTEN
              ++ rmw_or FLASH_ACR c2 FLASH_ACR_PRFTEN)
           = Z.lor acr0 FLASH_ACR_PRFTEN).
Proof.
  split; [reflexivity|]. split; [reflexivity|]. split; [reflexivity|].
  intros acr0.
  cbn [app rmw_and_not rmw_or rd bank_coherent bank_after reg_eqb andb].
  repeat split; intros H;
    apply andb_true_iff in H; destruct H as (H1 & H);
    apply andb_true_iff in H; destruct H as (H2 & _);
    apply Z.eqb_eq in H1, H2; rewrite H2; subst acr0.
  - apply lor_land_not32_same.
  - apply land_not32_lor_same.
  - rewrite <- Z.lor_assoc, Z.lor_diag. reflexivity.
Qed.

End AccessControl.

(** ** Operations one after the other *)

Section Sequences.

Context {hdr : flash_h} {ok : flash_h_ok hdr}.

Lemma run_operation_keeps_clean op tape u tr rest cr0 :
  run_operation op tape = Done u tr rest ->
  bank_coherent FLASH_CR cr0 tr = true ->
  Z.land cr0 cr_armed_bits = 0 ->
  Z.land (bank_after FLASH_CR cr0 tr) cr_armed_bits = 0.
Proof.
  destruct op as [program_size|sector program_size|w address data];
    simpl; intros Hrun.
  - apply flash_erase_all_sectors_Done_inv in Hrun.
    destruct Hrun as (busy1 & idle1 & c1 & c2 & c3 & c4 & busy2 & idle2
                      & c5 & _ & _ & _ & _ & _ & ->).
    apply erase_all_clean.
  - apply flash_erase_sector_Done_inv in Hrun.
    destruct Hrun as (busy1 & idle1 & c1 & c2 & c3 & c4 & c5 & c6 & busy2
                      & idle2 & c7 & c8 & _ & _ & _ & _ & _ & ->).
    apply erase_sector_clean.
  - apply program_primitive_Done_inv in Hrun.
    destruct Hrun as (busy1 & idle1 & c1 & c2 & c3 & busy2 & idle2 & c4
                      & _ & _ & _ & _ & _ & ->).
    apply program_clean.
Qed.

(** X7: a clean control register is an invariant of the driver: with the
    control register a cell of a register bank and the sector-number
    field and the sector-erase, mass-erase and program-enable bits zero
    at entry, they are zero again after any sequence of erase and program
    operations, of any length and in any order, has returned. *)
Theorem run_operations_keep_control_register_clean
    (ops : list operation) :
  forall tape tr rest cr0,
    run_operations ops tape = Done tt tr rest ->
    bank_coherent FLASH_CR cr0 tr = true ->
    Z.land cr0 cr_armed_bits = 0 ->
    Z.land (bank_after FLASH_CR cr0 tr) cr_armed_bits = 0.
Proof.
  induction ops as [|op ops IH]; intros tape tr rest cr0 Hrun Hcoh Hclean.
  - cbv [run_operations ret] in Hrun. inversion Hrun; subst. exact Hclean.
  - simpl in Hrun. apply bind_Done_inv in Hrun.
    destruct Hrun as (u & tr1 & mid & tr2 & Hop & Hops & ->).
    rewrite bank_coherent_app in Hcoh.
    apply andb_true_iff in Hcoh. destruct Hcoh as (Hcoh1 & Hcoh2).
    rewrite bank_after_app.
    apply (IH mid tr2 rest); [exact Hops | exact Hcoh2 |].
    apply (run_operation_keeps_clean op tape u tr1 mid); assumption.
Qed.

End Sequences.

(** ** The option-control register after an option-byte write *)

Section OptionControl.

Context {hdr : flash_h}.

Lemma bank_after_wait_any r cur busy idle tr :
  bank_after r cur (wait_trace busy idle ++ tr) = bank_after r cur tr.
Proof. rewrite bank_after_app, bank_after_wait. reflexivity. Qed.

Lemma bank_coherent_wait_any r cur busy idle tr :
  reg_eqb r FLASH_SR = false ->
  bank_coherent r cur (wait_trace busy idle ++ tr) = bank_coherent r cur tr.
Proof.
  intros Hr. rewrite bank_coherent_app, bank_after_wait.
  unfold wait_trace. simpl.
  rewrite bank_coherent_app, bank_coherent_reads by exact Hr.
  simpl. rewrite Hr. reflexivity.
Qed.

(** X9: [flash_program_option_bytes data] overwrites the option-control
    register: with the register a cell of a register bank, after the call
    returns it holds [data] with the low two bits cleared and the
    option-start bit ORed in, whatever it held before and whether or not
    the unlock sequence ran. *)
Theorem flash_program_option_bytes_overwrites
    (data : Z) (tape : list Z) (tr : trace) (rest : list Z) (optcr0 : Z) :
  flash_program_option_bytes data tape = Done tt tr rest ->
  bank_coherent FLASH_OPTCR optcr0 tr = true ->
  bank_after FLASH_OPTCR optcr0 tr
  = Z.lor (Z.land data (not32 0x3)) FLASH_OPTCR_OPTSTRT.
Proof.
  intros Hrun. apply flash_program_option_bytes_Done_inv in Hrun.
  destruct Hrun as (busy1 & idle1 & o1 & o2 & o3 & busy2 & idle2
                    & _ & _ & _ & _ & _ & ->).
  unfold option_bytes_trace, unlock_option_trace.
  rewrite bank_coherent_wait_any, bank_after_wait_any by reflexivity.
  destruct (option_locked o1);
    cbn [app rmw_or rd bank_coherent bank_after reg_eqb andb];
    rewrite bank_after_wait;
    intros H;
    repeat match type of H with
           | (_ && _) = true =>
               let H' := fresh "Hread" in
               apply andb_true_iff in H; destruct H as (H' & H);
               apply Z.eqb_eq in H'
           end;
    match goal with
    | Hw : wrap32 o3 = _ |- _ => rewrite Hw; reflexivity
    end.
Qed.

End OptionControl.

(** ** Stores of the program functions, however the run ends *)

Section Stores.

Context {hdr : flash_h}.

Lemma within_no_store rs tr :
  forallb (within rs false) tr = true -> stores tr = [].
Proof.
  induction tr as [|e tr IH]; simpl; [reflexivity|].
  intros H. apply andb_true_iff in H. destruct H as (He & Htr).
  destruct e; simpl in He; try discriminate; apply IH; exact Htr.
Qed.

Lemma footprint_no_store {A : Type} rs (m : M A) tape :
  footprint rs false m -> stores (emitted (m tape)) = [].
Proof. intros H. apply (within_no_store rs). apply H. Qed.

Lemma wait_no_store tape :
  stores (emitted (flash_wait_for_last_operation tape)) = [].
Proof.
  apply (footprint_no_store [FLASH_SR]).
  unfold flash_wait_for_last_operation, flash_pipeline_stall.
  footprint_steps.
Qed.

Lemma disarm_no_store tape :
  stores
    (emitted
       ((flash_wait_for_last_operation ;;
         and_not_assign FLASH_CR FLASH_CR_PG) tape)) = [].
Proof.
  apply (footprint_no_store [FLASH_SR; FLASH_CR]).
  unfold flash_wait_for_last_operation, flash_pipeline_stall,
    and_not_assign.
  footprint_steps.
Qed.

Lemma program_primitive_store_shape
    (w : mmio_width) (address data : Z) (tape : list Z) :
  stores (emitted (program_primitive w address data tape)) = []
  \/ exists pre c post,
       emitted (program_primitive w address data tape)
       = pre ++ EvWrite FLASH_CR (Z.lor c FLASH_CR_PG)
             :: EvStore w address data :: post /\
       stores pre = [] /\ stores post = [].
Proof.
  rewrite program_primitive_unfold, emitted_bind.
  pose proof (wait_no_store tape) as Hwait.
  destruct (flash_wait_for_last_operation tape) as [u tr1 rest1|tr1|tr1];
    simpl in Hwait; [|left; exact Hwait|left; exact Hwait].
  destruct rest1 as [|c1 [|c2 [|c3 rest2]]].
  - left. rewrite stores_app, Hwait. reflexivity.
  - left. rewrite stores_app, Hwait. reflexivity.
  - left. rewrite stores_app, Hwait. reflexivity.
  - right.
    rewrite bind_set_program_size, bind_or_assign, bind_store.
    rewrite !emitted_prepend.
    exists (tr1
            ++ (rmw_and_not FLASH_CR c1
                  (shl32 FLASH_CR_PROGRAM_MASK FLASH_CR_PROGRAM_SHIFT)
                ++ rmw_or FLASH_CR c2
                     (shl32 (parallelism w) FLASH_CR_PROGRAM_SHIFT))
            ++ [rd FLASH_CR c3]),
      (wrap32 c3),
      (emitted
         ((flash_wait_for_last_operation ;;
           and_not_assign FLASH_CR FLASH_CR_PG) rest2)).
    split; [|split].
    + rewrite <- !app_assoc. reflexivity.
    + rewrite !stores_app, Hwait. reflexivity.
    + apply disarm_no_store.
Qed.

(** X10: trigger-by-store holds on every run of a program primitive, also on
    one that never returns: the trace has no store at all, or exactly one
    store, of the datum at the address with the primitive's width, and
    that store comes directly after the control-register write that sets
    the program-enable bit. *)
Theorem program_primitive_store_follows_enable
    (w : mmio_width) (address data : Z) (tape : list Z) :
  stores (emitted (program_primitive w address data tape)) = []
  \/ exists pre c post,
       emitted (program_primitive w address data tape)
       = pre ++ EvWrite FLASH_CR (Z.lor c FLASH_CR_PG)
             :: EvStore w address data :: post /\
       stores pre = [] /\ stores post = [].
Proof. apply program_primitive_store_shape. Qed.

Lemma program_primitive_stores_prefix w address data tape :
  stores (emitted (program_primitive w address data tape)) = []
  \/ stores (emitted (program_primitive w address data tape))
     = [(w, address, data)].
Proof.
  destruct (program_primitive_store_shape w address data tape)
    as [H|(pre & c & post & Htr & Hpre & Hpost)]; [left; exact H|right].
  rewrite Htr, stores_app, Hpre. simpl. rewrite Hpost. reflexivity.
Qed.

End Stores.

Section BulkStores.

Context {hdr : flash_h}.

Lemma bind_no_fault {A B : Type} (m : M A) (k : A -> M B) :
  (forall tape tr, m tape <> Fault tr) ->
  (forall a tape tr, k a tape <> Fault tr) ->
  forall tape tr, bind m k tape <> Fault tr.
Proof.
  intros Hm Hk tape tr. unfold bind.
  destruct (m tape) as [a tr0 rest|tr0|tr0] eqn:E.
  - destruct (k a rest) eqn:E'; simpl; try discriminate.
    exfalso. eapply Hk. exact E'.
  - discriminate.
  - exfalso. eapply Hm. exact E.
Qed.

Lemma read_no_fault r tape tr : read r tape <> Fault tr.
Proof. destruct tape; discriminate. Qed.

(** A program primitive touches registers and one flash location, never
    the caller's buffer. *)
Lemma program_primitive_no_fault w address data :
  forall tape tr, program_primitive w address data tape <> Fault tr.
Proof.
  rewrite program_primitive_unfold.
  unfold flash_set_program_size, or_assign, and_not_assign.
  repeat first
    [ exact wait_no_fault
    | apply bind_no_fault; [|intros ?]
    | exact (read_no_fault _)
    | (intros tape tr; cbv [write store]; discriminate) ].
Qed.

(** With the bytes left in the buffer the loop never reads outside it. *)
Lemma flash_program_from_no_fault address data todo :
  forall i tape tr,
    (i + todo <= length data)%nat ->
    flash_program_from address data i todo tape <> Fault tr.
Proof.
  induction todo as [|todo IH]; intros i tape tr Hlen; simpl.
  - discriminate.
  - destruct (nth_error data i) as [d|] eqn:Hd;
      [|apply nth_error_None in Hd; lia].
    unfold load at 1. rewrite Hd.
    unfold bind at 1. cbv [ret]. rewrite prepend_nil.
    apply bind_no_fault.
    + apply (program_primitive_no_fault MMIO8).
    + intros _ tape' tr'. apply IH. lia.
Qed.

Lemma flash_program_from_stores_prefix address data todo :
  forall i tape,
    (i + todo <= length data)%nat ->
    exists k,
      stores (emitted (flash_program_from address data i todo tape))
      = firstn k
          (map (fun p => (MMIO8, add32 address (Z.of_nat (fst p)), snd p))
               (combine (seq i todo) (skipn i data))).
Proof.
  induction todo as [|todo IH]; intros i tape Hlen.
  - exists 0%nat. reflexivity.
  - simpl flash_program_from. rewrite emitted_bind. unfold load.
    destruct (nth_error data i) as [d|] eqn:Hd;
      [|apply nth_error_None in Hd; lia].
    cbv [ret]. cbn [app]. rewrite emitted_bind.
    rewrite (skipn_nth_error _ _ _ Hd). cbn [seq combine map fst snd].
    pose proof (program_primitive_stores_prefix MMIO8
                  (add32 address (Z.of_nat i)) d tape) as Hbyte.
    change (program_primitive MMIO8) with flash_program_byte in Hbyte.
    destruct (flash_program_byte (add32 address (Z.of_nat i)) d tape)
      as [u tr rest|tr|tr] eqn:E; simpl in Hbyte.
    + destruct (IH (S i) rest ltac:(lia)) as (k & Hk).
      apply (program_primitive_Done_inv MMIO8) in E.
      destruct E as (busy1 & idle1 & c1 & c2 & c3 & busy2 & idle2 & c4
                     & _ & _ & _ & _ & _ & ->).
      exists (S k). rewrite stores_app, stores_program_trace, Hk.
      reflexivity.
    + destruct Hbyte as [-> | ->];
        [exists 0%nat | exists 1%nat]; reflexivity.
    + destruct Hbyte as [-> | ->];
        [exists 0%nat | exists 1%nat]; reflexivity.
Qed.

Lemma flash_program_from_Done_stores address data todo :
  forall i tape u tr rest,
    (i + todo <= length data)%nat ->
    flash_program_from address data i todo tape = Done u tr rest ->
    stores tr
    = map (fun p => (MMIO8, add32 address (Z.of_nat (fst p)), snd p))
          (combine (seq i todo) (skipn i data)).
Proof.
  intros i tape u tr rest Hlen H.
  apply flash_program_from_Done_shape in H.
  destruct H as (qs & <- & _ & _ & ->).
  apply stores_bulk_trace.
Qed.

(** X11: with the [len] bytes asked for in the caller's buffer, on
    every run of [flash_program], also one that hangs on busy hardware,
    the stores issued are an initial part of [data[0]] at [address],
    [data[1]] at [address + 1], ...: no byte is skipped, repeated,
    reordered or stored elsewhere.  A run that returns has issued all
    [len] of them.  No such run reads the buffer outside these [len]
    bytes. *)
Theorem flash_program_stores_in_order
    (address : Z) (data : list Z) (len : Z) (tape : list Z) :
  (Z.to_nat len <= length data)%nat ->
  (forall tr, flash_program address data len tape <> Fault tr)
  /\ (exists k,
         stores (emitted (flash_program address data len tape))
         = firstn k (expected_stores address data (Z.to_nat len)))
  /\ (forall tr rest,
         flash_program address data len tape = Done tt tr rest ->
         length (stores tr) = Z.to_nat len /\
         stores tr = expected_stores address data (Z.to_nat len)).
Proof.
  intros Hbuf. unfold flash_program, expected_stores. split; [|split].
  - intros tr. apply flash_program_from_no_fault. simpl. exact Hbuf.
  - apply (flash_program_from_stores_prefix address data (Z.to_nat len) 0).
    simpl. exact Hbuf.
  - intros tr rest H.
    apply flash_program_from_Done_stores in H; [|simpl; exact Hbuf].
    cbn [skipn] in H. rewrite H. split; [|reflexivity].
    rewrite length_map, length_combine, length_seq. lia.
Qed.

End BulkStores.

(** ** Unlock and lock, composed *)

Section LockRoundTrip.

Context {hdr : flash_h}.

(** X13: unlock, lock and unlock again: [flash_unlock] does not look at the
    lock bit, so the key sequence is written anew each time, whatever the
    control register reads, and every control-register write of the three
    calls has the lock bit set. *)
Theorem flash_unlock_lock_unlock (c1 c2 c3 : Z) (rest : list Z) :
  (flash_unlock ;; flash_lock ;; flash_unlock) (c1 :: c2 :: c3 :: rest)
  = Done tt
      (rmw_or FLASH_CR c1 FLASH_CR_LOCK
       ++ [EvWrite FLASH_KEYR 0x45670123; EvWrite FLASH_KEYR 0xCDEF89AB]
       ++ rmw_or FLASH_CR c2 FLASH_CR_LOCK
       ++ rmw_or FLASH_CR c3 FLASH_CR_LOCK
       ++ [EvWrite FLASH_KEYR 0x45670123; EvWrite FLASH_KEYR 0xCDEF89AB])
      rest
  /\ writes_to FLASH_KEYR
       (emitted
          ((flash_unlock ;; flash_lock ;; flash_unlock)
             (c1 :: c2 :: c3 :: rest)))
     = [0x45670123; 0xCDEF89AB; 0x45670123; 0xCDEF89AB]
  /\ Forall
       (fun w => Z.land w FLASH_CR_LOCK = FLASH_CR_LOCK)
       (writes_to FLASH_CR
          (emitted
             ((flash_unlock ;; flash_lock ;; flash_unlock)
                (c1 :: c2 :: c3 :: rest)))).
Proof.
  split; [reflexivity|]. split; [reflexivity|].
  change (writes_to FLASH_CR
            (emitted
               ((flash_unlock ;; flash_lock ;; flash_unlock)
                  (c1 :: c2 :: c3 :: rest))))
    with [Z.lor (wrap32 c1) FLASH_CR_LOCK;
          Z.lor (wrap32 c2) FLASH_CR_LOCK;
          Z.lor (wrap32 c3) FLASH_CR_LOCK].
  repeat constructor; apply land_lor_same.
Qed.

End LockRoundTrip.

(** ** Busy hardware, and the bits an operation leaves alone *)

Section BusyAndFrame.

Context {hdr : flash_h}.

Lemma wait_Starved tape :
  Forall still_busy tape ->
  flash_wait_for_last_operation tape
  = Starved (EvDsb :: map (rd FLASH_SR) tape).
Proof.
  intros Hbusy. unfold flash_wait_for_last_operation, bind.
  cbv [flash_pipeline_stall dsb].
  rewrite spin_Starved by (apply Forall_busy_test; exact Hbusy).
  reflexivity.
Qed.

Lemma bind_wait_Starved {B : Type} (k : unit -> M B) tape :
  Forall still_busy tape ->
  bind flash_wait_for_last_operation k tape
  = Starved (EvDsb :: map (rd FLASH_SR) tape).
Proof. intros Hbusy. unfold bind. rewrite wait_Starved by exact Hbusy.
       reflexivity. Qed.

(** X12: nothing is armed while the controller is busy: when every status
    read shows the busy flag, an erase, a program primitive and the
    option-byte write are still polling at the end of the tape, and all
    they have done is the barrier and the status reads - no register
    write, no store. *)
Theorem nothing_written_while_busy (tape : list Z) :
  Forall still_busy tape ->
  (forall op,
      run_operation op tape = Starved (EvDsb :: map (rd FLASH_SR) tape))
  /\ (forall data,
         flash_program_option_bytes data tape
         = Starved (EvDsb :: map (rd FLASH_SR) tape))
  /\ (forall r, writes_to r (EvDsb :: map (rd FLASH_SR) tape) = [])
  /\ stores (EvDsb :: map (rd FLASH_SR) tape) = [].
Proof.
  intros Hbusy. split; [|split; [|split]].
  - intros [program_size|sector program_size|w address data]; simpl.
    + apply bind_wait_Starved. exact Hbusy.
    + apply bind_wait_Starved. exact Hbusy.
    + rewrite program_primitive_unfold.
      apply bind_wait_Starved. exact Hbusy.
  - intros data. apply bind_wait_Starved. exact Hbusy.
  - intros r. simpl. apply writes_to_reads.
  - simpl. apply stores_reads.
Qed.

End BusyAndFrame.

Section Frame.

Context {hdr : flash_h} {ok : flash_h_ok hdr}.

Lemma requested_size_outside_field op i :
  0 <= i ->
  Z.land (requested_size op) FLASH_CR_PROGRAM_MASK = requested_size op ->
  Z.testbit (shl32 FLASH_CR_PROGRAM_MASK FLASH_CR_PROGRAM_SHIFT) i = false ->
  Z.testbit (shl32 (requested_size op) FLASH_CR_PROGRAM_SHIFT) i = false.
Proof. intros Hi Hin Hout. eapply shl32_within_mask; eassumption. Qed.

Ltac split_untouched H :=
  unfold touched_by in H;
  repeat rewrite ?Z.lor_spec in H;
  repeat match type of H with
         | _ || _ = false =>
             let H' := fresh "Hbit" in
             apply orb_false_iff in H; destruct H as (H & H')
         end;
  repeat match goal with
         | Hb : _ || _ = false |- _ =>
             let H' := fresh "Hbit" in
             apply orb_false_iff in Hb; destruct Hb as (Hb & H')
         end.

(** X8: an erase or program operation leaves the rest of the control
    register alone: with the register a cell of a register bank and the
    requested parallelism within the field's mask, every bit outside the
    program-size field, the bits the operation arms and, for an erase,
    the start strobe, reads after the operation as it did before - the
    lock bit and the interrupt enables among them. *)
Theorem operation_frame
    (op : operation) (tape : list Z) (tr : trace) (rest : list Z) (cr0 : Z) :
  Z.land (requested_size op) FLASH_CR_PROGRAM_MASK = requested_size op ->
  run_operation op tape = Done tt tr rest ->
  bank_coherent FLASH_CR cr0 tr = true ->
  forall i,
    Z.testbit (touched_by op) i = false ->
    Z.testbit (bank_after FLASH_CR cr0 tr) i = Z.testbit cr0 i.
Proof.
  intros Hsize Hrun Hcoh i Hout.
  destruct (Z.ltb_spec i 0) as [Hneg|Hi];
    [rewrite !Z.testbit_neg_r by exact Hneg; reflexivity|].
  assert (Hfield :
            Z.testbit (shl32 FLASH_CR_PROGRAM_MASK FLASH_CR_PROGRAM_SHIFT) i
            = false).
  { unfold touched_by in Hout. rewrite Z.lor_spec in Hout.
    apply orb_false_iff in Hout. apply Hout. }
  pose proof (requested_size_outside_field op i Hi Hsize Hfield) as Hreq.
  destruct op as [program_size|sector program_size|w address data];
    simpl in Hrun, Hreq.
  - apply flash_erase_all_sectors_Done_inv in Hrun.
    destruct Hrun as (busy1 & idle1 & c1 & c2 & c3 & c4 & busy2 & idle2
                      & c5 & _ & _ & _ & _ & _ & ->).
    unfold erase_all_trace in *. coherent_chain Hcoh. bank_after_simpl.
    split_untouched Hout. subst cr0. follow_chain. testbits i.
    rewrite Hfield, Hreq, Hbit, Hbit0.
    destruct (Z.testbit (wrap32 c1) i) eqn:Hraw; [|reflexivity].
    rewrite (wrap32_bit_in_range _ _ Hraw). reflexivity.
  - apply flash_erase_sector_Done_inv in Hrun.
    destruct Hrun as (busy1 & idle1 & c1 & c2 & c3 & c4 & c5 & c6 & busy2
                      & idle2 & c7 & c8 & _ & _ & _ & _ & _ & ->).
    unfold erase_sector_trace in *. coherent_chain Hcoh. bank_after_simpl.
    split_untouched Hout. subst cr0. follow_chain. testbits i.
    rewrite Hfield, Hreq, Hbit, Hbit0, Hbit1.
    destruct (Z.testbit (wrap32 c1) i) eqn:Hraw;
      [|rewrite ?andb_false_r; reflexivity].
    rewrite (wrap32_bit_in_range _ _ Hraw). rewrite ?andb_false_r.
    reflexivity.
  - apply program_primitive_Done_inv in Hrun.
    destruct Hrun as (busy1 & idle1 & c1 & c2 & c3 & busy2 & idle2 & c4
                      & _ & _ & _ & _ & _ & ->).
    unfold program_trace in *. coherent_chain Hcoh. bank_after_simpl.
    split_untouched Hout. subst cr0. follow_chain. testbits i.
    rewrite Hfield, Hreq, Hbit.
    destruct (Z.testbit (wrap32 c1) i) eqn:Hraw; [|reflexivity].
    rewrite (wrap32_bit_in_range _ _ Hraw). reflexivity.
Qed.

End Frame.

(** ** More examples on the STM32F7 layout *)

Section Stm32f7Sequences.

#[local] Existing Instance stm32f7.

(** Parallelism x32 requested on a control register that holds the two
    interrupt enables and parallelism x16. *)
Lemma flash_set_program_size_field_witness :
  flash_h_ok stm32f7 /\
  flash_set_program_size 2 [0x03000100; 0x03000000]
  = Done tt
      [EvRead FLASH_CR 0x03000100; EvWrite FLASH_CR 0x03000000;
       EvRead FLASH_CR 0x03000000; EvWrite FLASH_CR 0x03000200]
      [] /\
  bank_coherent FLASH_CR 0x03000100
    [EvRead FLASH_CR 0x03000100; EvWrite FLASH_CR 0x03000000;
     EvRead FLASH_CR 0x03000000; EvWrite FLASH_CR 0x03000200]
  = true /\
  program_size_field 0x03000200 = 2 /\
  Z.testbit 0x03000200 24 = Z.testbit 0x03000100 24.
Proof.
  split; [exact stm32f7_ok|]. split; [reflexivity|].
  split; [reflexivity|].
  pose proof (@flash_set_program_size_field stm32f7 stm32f7_ok
                2 0x03000100 0x03000000 [] 0x03000100) as H.
  cbv zeta in H. destruct H as (_ & H).
  destruct (H eq_refl) as (Hfield & _ & Hframe).
  split; [exact Hfield|].
  apply (Hframe eq_refl 24); [lia | reflexivity].
Defined.

(** A mass erase at x32 from a clean control register. *)
Lemma flash_erase_all_sectors_sequence_witness :
  flash_h_ok stm32f7 /\
  exists tr,
    flash_erase_all_sectors 2 [0; 0; 0; 0x200; 0x204; 0; 0x10204]
    = Done tt tr [] /\
    stores tr = [] /\
    bank_coherent FLASH_CR 0 tr = true /\
    exists w1 w2 w3 w4 w5,
      writes_to FLASH_CR tr = [w1; w2; w3; w4; w5] /\
      Z.land w4 FLASH_CR_MER = FLASH_CR_MER /\
      program_size_field w4 = 2 /\
      Z.land w5 FLASH_CR_MER = 0.
Proof.
  split; [exact stm32f7_ok|].
  pose (tape := [0; 0; 0; 0x200; 0x204; 0; 0x10204]).
  pose (tr := emitted (flash_erase_all_sectors 2 tape)).
  exists tr. split; [reflexivity|].
  destruct (proj1 (@flash_erase_all_sectors_sequence stm32f7 stm32f7_ok 2)
              tape tr [] eq_refl)
    as (busy1 & idle1 & c1 & c2 & c3 & c4 & busy2 & idle2 & c5
        & _ & _ & _ & _ & _ & _ & Hstores & Hbank).
  split; [exact Hstores|]. split; [reflexivity|].
  destruct (Hbank 0 eq_refl)
    as (w1 & w2 & w3 & w4 & w5 & Hw & Hmer & _ & Hsize & Hoff).
  exists w1, w2, w3, w4, w5.
  split; [exact Hw|]. split; [exact Hmer|].
  split; [apply Hsize; reflexivity | exact Hoff].
Defined.

(** Prefetch and ART toggled on an access-control register with five
    wait states. *)
Lemma art_and_prefetch_keep_latency_witness :
  Z.land FLASH_ACR_ARTEN FLASH_ACR_LATENCY_MASK = 0 /\
  Z.land FLASH_ACR_ARTRST FLASH_ACR_LATENCY_MASK = 0 /\
  Z.land FLASH_ACR_PRFTEN FLASH_ACR_LATENCY_MASK = 0 /\
  exists w,
    flash_prefetch_disable [0x305]
    = Done tt [rd FLASH_ACR 0x305; EvWrite FLASH_ACR w] [] /\
    latency_field w = latency_field (wrap32 0x305).
Proof.
  split; [reflexivity|]. split; [reflexivity|]. split; [reflexivity|].
  apply (@art_and_prefetch_keep_latency stm32f7 0x305 []
           eq_refl eq_refl eq_refl).
Defined.

(** Prefetch switched on and off again with five wait states set. *)
Lemma prefetch_enable_disable_compose_witness :
  bank_coherent FLASH_ACR 0x5
    (rmw_or FLASH_ACR 0x5 FLASH_ACR_PRFTEN
     ++ rmw_and_not FLASH_ACR 0x105 FLASH_ACR_PRFTEN) = true /\
  bank_after FLASH_ACR 0x5
    (rmw_or FLASH_ACR 0x5 FLASH_ACR_PRFTEN
     ++ rmw_and_not FLASH_ACR 0x105 FLASH_ACR_PRFTEN)
  = Z.land 0x5 (not32 FLASH_ACR_PRFTEN).
Proof.
  split; [reflexivity|].
  destruct (@prefetch_enable_disable_compose stm32f7 0x5 0x105 [])
    as (_ & _ & _ & H).
  apply (proj1 (H 0x5)). reflexivity.
Defined.

(** Sector 3 erased and a word programmed into it, from a clean control
    register. *)
Lemma run_operations_keep_control_register_clean_witness :
  flash_h_ok stm32f7 /\
  exists tr,
    run_operations
      [EraseSector 3 2; Program MMIO32 0x08018000 0xDEADBEEF]
      [0; 0; 0; 0x200; 0x200; 0x218; 0x21a; 0; 0x1021a; 0x10218;
       0; 0x10200; 0x10000; 0x10200; 0; 0x10201]
    = Done tt tr [] /\
    bank_coherent FLASH_CR 0 tr = true /\
    Z.land 0 cr_armed_bits = 0 /\
    Z.land (bank_after FLASH_CR 0 tr) cr_armed_bits = 0.
Proof.
  split; [exact stm32f7_ok|].
  pose (tape := [0; 0; 0; 0x200; 0x200; 0x218; 0x21a; 0; 0x1021a; 0x10218;
                 0; 0x10200; 0x10000; 0x10200; 0; 0x10201]).
  pose (ops := [EraseSector 3 2; Program MMIO32 0x08018000 0xDEADBEEF]).
  pose (tr := emitted (run_operations ops tape)).
  exists tr. split; [reflexivity|]. split; [reflexivity|].
  split; [reflexivity|].
  apply (@run_operations_keep_control_register_clean stm32f7 stm32f7_ok
           ops tape tr [] 0); reflexivity.
Defined.

(** Option bytes written over a locked option-control register. *)
Lemma flash_program_option_bytes_overwrites_witness :
  exists tr,
    flash_program_option_bytes 0x0FFFAAFF [0; 1; 1; 0x0FFFAAFC; 0]
    = Done tt tr [] /\
    bank_coherent FLASH_OPTCR 1 tr = true /\
    bank_after FLASH_OPTCR 1 tr = 0x0FFFAAFE.
Proof.
  pose (tape := [0; 1; 1; 0x0FFFAAFC; 0]).
  pose (tr := emitted (flash_program_option_bytes 0x0FFFAAFF tape)).
  exists tr. split; [reflexivity|]. split; [reflexivity|].
  apply (@flash_program_option_bytes_overwrites stm32f7
           0x0FFFAAFF tape tr [] 1); reflexivity.
Defined.

(** Three bytes asked for from a buffer of three, hardware that goes busy
    for good after the first byte: one store has been issued, the first
    of the three.  On hardware that is busy once after every store all
    three are issued. *)
Lemma flash_program_stores_in_order_witness :
  (Z.to_nat 3 <= length [1; 2; 3])%nat
  /\ (exists k,
         stores
           (emitted
              (flash_program 0x08020000 [1; 2; 3] 3
                 [0; 0; 0; 1; 0; 0; 0x10000; 0x10000]))
         = firstn k
             [(MMIO8, 0x08020000, 1); (MMIO8, 0x08020001, 2);
              (MMIO8, 0x08020002, 3)])
  /\ exists tr,
       flash_program 0x08020000 [1; 2; 3] 3
         [0; 0; 0; 0; 0x10000; 0; 1;
          0; 0; 0; 0; 0x10000; 0; 1;
          0; 0; 0; 0; 0x10000; 0; 1]
       = Done tt tr [] /\
       stores tr
       = [(MMIO8, 0x08020000, 1); (MMIO8, 0x08020001, 2);
          (MMIO8, 0x08020002, 3)].
Proof.
  assert (Hbuf : (Z.to_nat 3 <= length [1; 2; 3])%nat) by (simpl; lia).
  split; [exact Hbuf|]. split.
  - apply (proj1 (proj2 (@flash_program_stores_in_order stm32f7
                           0x08020000 [1; 2; 3] 3
                           [0; 0; 0; 1; 0; 0; 0x10000; 0x10000] Hbuf))).
  - pose (tape := [0; 0; 0; 0; 0x10000; 0; 1;
                   0; 0; 0; 0; 0x10000; 0; 1;
                   0; 0; 0; 0; 0x10000; 0; 1]).
    pose (tr := emitted (flash_program 0x08020000 [1; 2; 3] 3 tape)).
    exists tr. split; [reflexivity|].
    apply (proj2 (proj2 (@flash_program_stores_in_order stm32f7
                           0x08020000 [1; 2; 3] 3 tape Hbuf))
             tr [] eq_refl).
Defined.

(** A sector erase on a controller that answers busy twice and no more. *)
Lemma nothing_written_while_busy_witness :
  Forall still_busy [0x10000; 0x10001] /\
  run_operation (EraseSector 3 2) [0x10000; 0x10001]
  = Starved [EvDsb; rd FLASH_SR 0x10000; rd FLASH_SR 0x10001].
Proof.
  assert (Hbusy : Forall still_busy [0x10000; 0x10001])
    by (repeat constructor).
  split; [exact Hbusy|].
  apply (proj1 (@nothing_written_while_busy stm32f7 _ Hbusy)).
Defined.

(** A word programmed with both interrupt enables set in the control
    register: bit 24, the end-of-operation interrupt enable, is as it
    was. *)
Lemma operation_frame_witness :
  Z.land (requested_size (Program MMIO32 0x08010000 0xDEADBEEF))
    FLASH_CR_PROGRAM_MASK
  = requested_size (Program MMIO32 0x08010000 0xDEADBEEF) /\
  exists tr,
    run_operation (Program MMIO32 0x08010000 0xDEADBEEF)
      [0; 0x03000000; 0x03000000; 0x03000200; 0; 0x03000201]
    = Done tt tr [] /\
    bank_coherent FLASH_CR 0x03000000 tr = true /\
    Z.testbit (touched_by (Program MMIO32 0x08010000 0xDEADBEEF)) 24
    = false /\
    Z.testbit (bank_after FLASH_CR 0x03000000 tr) 24
    = Z.testbit 0x03000000 24.
Proof.
  split; [reflexivity|].
  pose (op := Program MMIO32 0x08010000 0xDEADBEEF).
  pose (tape := [0; 0x03000000; 0x03000000; 0x03000200; 0; 0x03000201]).
  pose (tr := emitted (run_operation op tape)).
  exists tr. split; [reflexivity|]. split; [reflexivity|].
  split; [reflexivity|].
  apply (@operation_frame stm32f7 op tape tr [] 0x03000000);
    reflexivity.
Defined.

End Stm32f7Sequences.
